(** * Synthetic recommendation dataset generator (dataset_v1/gpt_data_gen.py)

    A shallow embedding of the generator script and the properties its
    specification states about it.

    Modelling conventions
    - Python [float]s are modelled by exact rationals [Q]: a literal such as
      [0.35] denotes 35/100 and [+], [-], [*], [/] are exact.  Rounding error
      of binary64 arithmetic is therefore outside the model.
    - Python [int]s are [Z]; list lengths and indices are [nat].
    - Dict literals are association lists in insertion order (the order in
      which Python iterates them); [d[k]] is a lookup that can raise
      [KeyError].
    - The module-level generator of [random] is an abstract state [G] with
      the operations of the class [PRNG]; every sampling function threads it.
    - Exceptions are values of [exn]; the unbounded [while] loop of
      [gen_user_row] takes a fuel argument and yields [None] when it runs
      out. *)

From Stdlib Require Import ZArith QArith Qround Lqa String Ascii List DecimalString.
From Stdlib Require Import DecimalFacts DecimalPos DecimalN.
From stdpp Require Import base gmap strings list.

Open Scope Q_scope.
Open Scope string_scope.
Open Scope list_scope.

(* ------------------------------------------------------------------ *)
(** * 1. Configuration section                                         *)
(* ------------------------------------------------------------------ *)

Definition ROWS_DEFAULT : Z := 100000.
Definition RECS_PER_USER : nat := 10.

Record AgeBand := { band_range : Z * Z; band_p : Q }.

Definition AGE_BANDS : list (string * AgeBand) :=
  [ ("18-25", {| band_range := (18, 25)%Z; band_p := 0.25 |});
    ("26-35", {| band_range := (26, 35)%Z; band_p := 0.35 |});
    ("36-45", {| band_range := (36, 45)%Z; band_p := 0.25 |});
    ("46-60", {| band_range := (46, 60)%Z; band_p := 0.12 |});
    ("60+",   {| band_range := (61, 75)%Z; band_p := 0.03 |}) ].

Definition GENDERS : list (string * Q) :=
  [ ("Male", 0.52); ("Female", 0.48) ].

Record Tier := {
  cities : list string;
  states : list string;
  price_weights : list Q   (* Budget, Mid, Premium, Luxury *)
}.

Definition TIERS : list (string * Tier) :=
  [ ("Tier1",
     {| cities := ["Mumbai"; "Delhi"; "Bangalore"; "Hyderabad"; "Chennai";
                   "Pune"; "Kolkata"; "Ahmedabad"; "Surat"; "Jaipur"];
        states := ["Maharashtra"; "Delhi"; "Karnataka"; "Telangana"; "Tamil Nadu";
                   "Maharashtra"; "West Bengal"; "Gujarat"; "Gujarat"; "Rajasthan"];
        price_weights := [0.20; 0.35; 0.28; 0.17] |});
    ("Tier2",
     {| cities := ["Lucknow"; "Kanpur"; "Nagpur"; "Indore"; "Bhopal";
                   "Visakhapatnam"; "Patna"; "Vadodara"; "Coimbatore"; "Agra"];
        states := ["Uttar Pradesh"; "Uttar Pradesh"; "Maharashtra"; "Madhya Pradesh";
                   "Madhya Pradesh"; "Andhra Pradesh"; "Bihar"; "Gujarat";
                   "Tamil Nadu"; "Uttar Pradesh"];
        price_weights := [0.30; 0.40; 0.22; 0.08] |});
    ("Tier3",
     {| cities := ["Rajkot"; "Meerut"; "Nashik"; "Faridabad"; "Ghaziabad";
                   "Jabalpur"; "Ranchi"; "Mysore"; "Jodhpur"; "Kota"];
        states := ["Gujarat"; "Uttar Pradesh"; "Maharashtra"; "Haryana";
                   "Uttar Pradesh"; "Madhya Pradesh"; "Jharkhand"; "Karnataka";
                   "Rajasthan"; "Rajasthan"];
        price_weights := [0.43; 0.42; 0.12; 0.03] |}) ].

Definition TIER_PROBS : list Q := [0.40; 0.35; 0.25].   (* Tier1, Tier2, Tier3 *)

Definition PRICE_BUCKETS : list string := ["Budget"; "Mid"; "Premium"; "Luxury"].

Definition PRICE_RANGES : list (string * (Z * Z)) :=
  [ ("Budget",  (100, 1000)%Z);
    ("Mid",     (1001, 5000)%Z);
    ("Premium", (5001, 15000)%Z);
    ("Luxury",  (15001, 60000)%Z) ].

Record Category := { items : list string; brands : list string }.

Definition CATEGORIES : list (string * Category) :=
  [ ("Electronics",
     {| items  := ["Smartphone"; "Laptop"; "Headphones"; "Smart Watch"; "Tablet"; "Camera"];
        brands := ["Samsung"; "Apple"; "OnePlus"; "Xiaomi"; "Realme"; "Vivo";
                   "HP"; "Dell"; "Lenovo"; "Sony"; "JBL"; "Boat"] |});
    ("Fashion",
     {| items  := ["T-shirt"; "Jeans"; "Kurta"; "Saree"; "Dress"; "Footwear"; "Ethnic Wear"];
        brands := ["H&M"; "Zara"; "Nike"; "Adidas"; "Puma"; "Fabindia"; "W"; "Biba";
                   "Allen Solly"; "Van Heusen"; "Levi's"; "Pepe Jeans"] |});
    ("Home",
     {| items  := ["Furniture"; "Kitchen Appliance"; "Home Decor"; "Bedding"; "Storage Solution"];
        brands := ["IKEA"; "Godrej"; "Whirlpool"; "LG"; "Prestige"; "Pigeon";
                   "Home Centre"; "Fabfurnish"] |});
    ("Beauty",
     {| items  := ["Skincare"; "Makeup"; "Haircare"; "Perfume"; "Grooming Product"];
        brands := ["Lakme"; "Maybelline"; "L'Oreal"; "Nivea"; "Dove"; "Garnier";
                   "Biotique"; "Mamaearth"; "Nykaa"; "Sugar Cosmetics"] |});
    ("Books",
     {| items  := ["Fiction Book"; "Non-fiction Book"; "Academic Book";
                   "Self-help Book"; "Children's Book"];
        brands := ["Penguin"; "Harper Collins"; "Classmate"; "Reynolds"; "Parker"] |});
    ("Sports",
     {| items  := ["Gym Equipment"; "Sportswear"; "Outdoor Gear"; "Yoga Accessory"];
        brands := ["Nike"; "Adidas"; "Puma"; "Reebok"; "Decathlon"; "Nivia"; "Cosco"] |});
    ("Grocery",
     {| items  := ["Snack"; "Beverage"; "Organic Product"; "Staple"];
        brands := ["Britannia"; "Parle"; "Nestle"; "Amul"; "Tata"; "ITC";
                   "Patanjali"; "Organic India"] |}) ].

(** Age-based preferences (share -> weight). *)
Definition AGE_PREFS : list (string * list (string * Q)) :=
  [ ("18-25", [("Electronics", 0.30); ("Fashion", 0.40); ("Beauty", 0.20); ("Books", 0.10)]);
    ("26-35", [("Electronics", 0.25); ("Fashion", 0.30); ("Home", 0.20);
               ("Sports", 0.15); ("Beauty", 0.10)]);
    ("36-45", [("Home", 0.35); ("Electronics", 0.20); ("Fashion", 0.20);
               ("Grocery", 0.15); ("Sports", 0.10)]);
    ("46-60", [("Home", 0.30); ("Grocery", 0.25); ("Electronics", 0.15);
               ("Fashion", 0.15); ("Books", 0.15)]);
    ("60+",   [("Grocery", 0.40); ("Home", 0.25); ("Books", 0.20);
               ("Electronics", 0.10); ("Beauty", 0.05)]) ].

(** Gender-based preferences. *)
Definition GENDER_PREFS : list (string * list (string * Q)) :=
  [ ("Male",   [("Electronics", 0.30); ("Sports", 0.20); ("Fashion", 0.25);
                ("Home", 0.15); ("Books", 0.10)]);
    ("Female", [("Fashion", 0.35); ("Beauty", 0.25); ("Home", 0.20);
                ("Electronics", 0.10); ("Books", 0.10)]) ].

(* ------------------------------------------------------------------ *)
(** * Python run-time notions used by the script                       *)
(* ------------------------------------------------------------------ *)

Inductive exn :=
| KeyError (key : string)
| IndexError
| ValueError
| ZeroDivisionError
| StopIteration
| FileNotFoundError
| CsvError
| SystemExit (msg : string).

Inductive result (A : Type) :=
| Ok (a : A)
| Raise (e : exn).
Arguments Ok {A} a.
Arguments Raise {A} e.

(** [list(d)]: the keys of a dict, in insertion order. *)
Definition keys {V} (d : list (string * V)) : list string := map fst d.

(** [d.values()]. *)
Definition values {V} (d : list (string * V)) : list V := map snd d.

(** [d[k]]. *)
Fixpoint dict_get {V} (d : list (string * V)) (k : string) : result V :=
  match d with
  | [] => Raise (KeyError k)
  | (k', v) :: d' => if String.eqb k' k then Ok v else dict_get d' k
  end.

(** [l[i]] for an [int] index: a negative index counts from the end. *)
Definition list_getitem {A} (l : list A) (i : Z) : result A :=
  let j := if (i <? 0)%Z then (Z.of_nat (length l) + i)%Z else i in
  if (j <? 0)%Z then Raise IndexError
  else match l !! Z.to_nat j with
       | Some x => Ok x
       | None => Raise IndexError
       end.

(** [d[cat] += w] on a [defaultdict(float)]: an existing entry is updated in
    place, a missing one is created as [0.0] at the end and then updated. *)
Fixpoint dd_add (d : list (string * Q)) (cat : string) (w : Q) : list (string * Q) :=
  match d with
  | [] => [(cat, 0 + w)]
  | (k, v) :: d' =>
      if String.eqb k cat then (k, v + w) :: d' else (k, v) :: dd_add d' cat w
  end.

(** [sum(xs)] *)
Definition sum (xs : list Q) : Q := fold_left Qplus xs 0.

Definition Qltb (x y : Q) : bool := negb (Qle_bool y x).

(** [round(x)] to the nearest integer, ties to even. *)
Definition round_half_even (x : Q) : Z :=
  let f := Qfloor x in
  let d := x - inject_Z f in
  if Qltb d 0.5 then f
  else if Qltb 0.5 d then (f + 1)%Z
  else if Z.even f then f else (f + 1)%Z.

(** [round(x, 2)] *)
Definition round2 (x : Q) : Q := inject_Z (round_half_even (x * 100)) / 100.

(* ------------------------------------------------------------------ *)
(** * Values and their text                                            *)
(* ------------------------------------------------------------------ *)

(** The values a row handed to [csv.writer.writerow] holds. *)
Inductive cell :=
| CStr (s : string)
| CInt (z : Z)
| CFloat (q : Q).

Definition LF : ascii := "010"%char.
Definition CR : ascii := "013"%char.
Definition DQUOTE : ascii := "034"%char.
Definition COMMA : ascii := ","%char.

(** [str(n)] for a length. *)
Definition str_nat (n : nat) : string := NilZero.string_of_uint (Nat.to_uint n).

(** [str(z)] for an [int]. *)
Definition str_int (z : Z) : string := NilZero.string_of_int (Z.to_int z).

Fixpoint zeros (n : nat) : string :=
  match n with
  | O => EmptyString
  | S n' => String "0"%char (zeros n')
  end.

(** [f"{z:06d}"]: zero padding to width 6, the sign counted in the width. *)
Definition format_06d (z : Z) : string :=
  let digits := NilZero.string_of_uint (N.to_uint (Z.abs_N z)) in
  if (z <? 0)%Z then "-" +:+ zeros (5 - String.length digits) +:+ digits
  else zeros (6 - String.length digits) +:+ digits.

(** [repr(x)] for a float [x] that is a multiple of 0.01 (the result of
    [round(_, 2)]): the shortest decimal, with at least one fractional
    digit. *)
Definition repr_float (q : Q) : string :=
  let h := round_half_even (q * 100) in
  let a := Z.abs h in
  let ip := (a / 100)%Z in
  let fp := (a mod 100)%Z in
  let frac :=
    if (fp mod 10 =? 0)%Z then str_int (fp / 10)
    else str_int (fp / 10) +:+ str_int (fp mod 10) in
  (if (h <? 0)%Z then "-" else EmptyString) +:+ str_int ip +:+ "." +:+ frac.

(** The text [csv.writer] gives a value: strings as they are, numbers
    through [str]. *)
Definition cell_str (c : cell) : string :=
  match c with
  | CStr s => s
  | CInt z => str_int z
  | CFloat q => repr_float q
  end.

(** The five cells one recommendation contributes to a row. *)
Definition rec_cells (r : string * string * string * Q * Q) : list cell :=
  let '(product_name, category, brand, price, score) := r in
  [CStr product_name; CStr category; CStr brand; CFloat price; CFloat score].

(** The [product_i] cells of a flat recommendation list: the first cell of
    every block of five. *)
Fixpoint product_cells (rec_flat : list cell) : list cell :=
  match rec_flat with
  | p :: _ :: _ :: _ :: _ :: rest => p :: product_cells rest
  | _ => []
  end.

(** The product names of a user row: the six identity cells are skipped. *)
Definition row_products (row : list cell) : list string :=
  map cell_str (product_cells (drop 6 row)).

(** [range(a, b)] *)
Definition range (a b : Z) : list Z :=
  map (fun k => (a + Z.of_nat k)%Z) (seq 0 (Z.to_nat (b - a))).

(* ------------------------------------------------------------------ *)
(** * The [csv] module, default ("excel") dialect                      *)
(* ------------------------------------------------------------------ *)

Definition special (c : ascii) : bool :=
  Ascii.eqb c COMMA || Ascii.eqb c DQUOTE || Ascii.eqb c CR || Ascii.eqb c LF.

Fixpoint has_special (s : string) : bool :=
  match s with
  | EmptyString => false
  | String c s' => special c || has_special s'
  end.

Fixpoint double_quotes (s : string) : string :=
  match s with
  | EmptyString => EmptyString
  | String c s' =>
      if Ascii.eqb c DQUOTE then String DQUOTE (String DQUOTE (double_quotes s'))
      else String c (double_quotes s')
  end.

(** One field under [QUOTE_MINIMAL]. *)
Definition csv_field (s : string) : string :=
  if has_special s then String DQUOTE (double_quotes s) +:+ String DQUOTE EmptyString
  else s.

Definition CRLF : string := String CR (String LF EmptyString).

(** The text [writer.writerow(row)] appends to the file; a row whose only
    field is empty is written as a quoted empty field. *)
Definition csv_line (row : list cell) : string :=
  match map cell_str row with
  | [EmptyString] => String DQUOTE (String DQUOTE EmptyString) +:+ CRLF
  | texts => String.concat "," (map csv_field texts) +:+ CRLF
  end.

(** Iterating a file opened for reading in text mode: universal newlines
    turn each line ending into a line feed, and every line keeps its own. *)
Fixpoint universal_newlines (s : string) : string :=
  match s with
  | EmptyString => EmptyString
  | String c s' =>
      if Ascii.eqb c CR then
        match s' with
        | String c' s'' =>
            if Ascii.eqb c' LF then String LF (universal_newlines s'')
            else String LF (universal_newlines s')
        | EmptyString => String LF EmptyString
        end
      else String c (universal_newlines s')
  end.

Fixpoint split_lines (cur : string) (s : string) : list string :=
  match s with
  | EmptyString => match cur with EmptyString => [] | _ => [cur] end
  | String c s' =>
      if Ascii.eqb c LF then (cur +:+ String LF EmptyString) :: split_lines EmptyString s'
      else split_lines (cur +:+ String c EmptyString) s'
  end.

Definition file_lines (content : string) : list string :=
  split_lines EmptyString (universal_newlines content).

(** The parser of [csv.reader]. *)
Inductive parse_state :=
| START_RECORD
| START_FIELD
| IN_FIELD
| IN_QUOTED_FIELD
| QUOTE_IN_QUOTED_FIELD
| EAT_CRNL.

Record parser := {
  state : parse_state;
  field : string;          (* the field being collected *)
  fields : list string     (* the fields of the record so far *)
}.

Definition parse_reset : parser :=
  {| state := START_RECORD; field := EmptyString; fields := [] |}.

Definition parse_save_field (p : parser) (st : parse_state) : parser :=
  {| state := st; field := EmptyString; fields := fields p ++ [field p] |}.

Definition parse_add_char (p : parser) (c : ascii) (st : parse_state) : parser :=
  {| state := st; field := field p +:+ String c EmptyString; fields := fields p |}.

Definition set_state (p : parser) (st : parse_state) : parser :=
  {| state := st; field := field p; fields := fields p |}.

Definition is_newline (c : ascii) : bool := Ascii.eqb c LF || Ascii.eqb c CR.

(** [parse_process_char]; [None] is the end-of-line signal sent after the
    last character of every line.  [None] as a result is [csv.Error]. *)
Definition parse_start_field (p : parser) (c : option ascii) : parser :=
  match c with
  | None => parse_save_field p START_RECORD
  | Some c =>
      if is_newline c then parse_save_field p EAT_CRNL
      else if Ascii.eqb c DQUOTE then set_state p IN_QUOTED_FIELD
      else if Ascii.eqb c COMMA then parse_save_field p START_FIELD
      else parse_add_char p c IN_FIELD
  end.

Definition parse_process_char (p : parser) (c : option ascii) : option parser :=
  match state p with
  | START_RECORD =>
      match c with
      | None => Some p                                   (* empty line *)
      | Some c' =>
          if is_newline c' then Some (set_state p EAT_CRNL)
          else Some (parse_start_field p c)
      end
  | START_FIELD => Some (parse_start_field p c)
  | IN_FIELD =>
      match c with
      | None => Some (parse_save_field p START_RECORD)
      | Some c =>
          if is_newline c then Some (parse_save_field p EAT_CRNL)
          else if Ascii.eqb c COMMA then Some (parse_save_field p START_FIELD)
          else Some (parse_add_char p c IN_FIELD)
      end
  | IN_QUOTED_FIELD =>
      match c with
      | None => Some p
      | Some c =>
          if Ascii.eqb c DQUOTE then Some (set_state p QUOTE_IN_QUOTED_FIELD)
          else Some (parse_add_char p c IN_QUOTED_FIELD)
      end
  | QUOTE_IN_QUOTED_FIELD =>
      match c with
      | None => Some (parse_save_field p START_RECORD)
      | Some c =>
          if Ascii.eqb c DQUOTE then Some (parse_add_char p c IN_QUOTED_FIELD)
          else if Ascii.eqb c COMMA then Some (parse_save_field p START_FIELD)
          else if is_newline c then Some (parse_save_field p EAT_CRNL)
          else Some (parse_add_char p c IN_FIELD)
      end
  | EAT_CRNL =>
      match c with
      | None => Some (set_state p START_RECORD)
      | Some c => if is_newline c then Some p else None
      end
  end.

Fixpoint parse_line (p : parser) (line : string) : option parser :=
  match line with
  | EmptyString => parse_process_char p None
  | String c line' =>
      match parse_process_char p (Some c) with
      | None => None
      | Some p' => parse_line p' line'
      end
  end.

(** [next(reader)]: feed lines until a record is complete.  The result is
    the record and the lines left in the file. *)
Fixpoint reader_loop (p : parser) (lines : list string)
  : result (list string * list string) :=
  match lines with
  | [] =>
      match field p, state p with
      | EmptyString, IN_QUOTED_FIELD
      | String _ _, _ => Ok (fields (parse_save_field p START_RECORD), [])
      | EmptyString, _ => Raise StopIteration
      end
  | line :: lines' =>
      match parse_line p line with
      | None => Raise CsvError
      | Some p' =>
          match state p' with
          | START_RECORD => Ok (fields p', lines')
          | _ => reader_loop p' lines'
          end
      end
  end.

Definition reader_next (lines : list string) : result (list string * list string) :=
  reader_loop parse_reset lines.

(* ------------------------------------------------------------------ *)
(** * The [random] module                                              *)
(* ------------------------------------------------------------------ *)

(** The generator behind the module-level functions of [random].
    [seed a] is the state installed by [random.seed(a)]; [random] is
    [random.random()], a float in the half-open interval from 0 to 1;
    [randbelow n] is the private [_randbelow(n)] on which [randint] and
    [choice] are built. *)
Class PRNG (G : Type) := {
  seed : Z -> G;
  random : G -> Q * G;
  randbelow : nat -> G -> nat * G;
  random_range : forall g, 0 <= fst (random g) < 1;
  randbelow_range : forall n g, (0 < n)%nat -> (fst (randbelow n g) < n)%nat
}.

Section Sampling.
Context {G : Type} `{PRNG G}.

(** Computations that draw from the generator, may raise, and may fail to
    terminate ([None]). *)
Definition M (A : Type) : Type := G -> option (result A * G).

Definition ret {A} (a : A) : M A := fun g => Some (Ok a, g).
Definition raise {A} (e : exn) : M A := fun g => Some (Raise e, g).
Definition lift {A} (r : result A) : M A := fun g => Some (r, g).
Definition diverge {A} : M A := fun _ => None.
Definition bind {A B} (m : M A) (k : A -> M B) : M B :=
  fun g =>
    match m g with
    | None => None
    | Some (Ok a, g') => k a g'
    | Some (Raise e, g') => Some (Raise e, g')
    end.

Notation "x <- m ;; k" := (bind m (fun x => k))
  (at level 20, m at level 99, k at level 200).
Notation "' p <- m ;; k" := (bind m (fun x => let 'p := x in k))
  (at level 20, p pattern, m at level 99, k at level 200).

(** [random.random()] *)
Definition random_random : M Q :=
  fun g => let (r, g') := random g in Some (Ok r, g').

(** [random._randbelow(n)] for [n > 0] *)
Definition random_randbelow (n : nat) : M nat :=
  fun g => let (k, g') := randbelow n g in Some (Ok k, g').

(** [itertools.accumulate(weights)] *)
Fixpoint accumulate_from (acc : Q) (ws : list Q) : list Q :=
  match ws with
  | [] => []
  | w :: ws' => (acc + w) :: accumulate_from (acc + w) ws'
  end.

Definition accumulate (ws : list Q) : list Q :=
  match ws with
  | [] => []
  | w :: ws' => w :: accumulate_from w ws'
  end.

(** [bisect.bisect_right(a, x, lo, hi)]: the binary search
    [while lo < hi: mid = (lo+hi)//2; if x < a[mid]: hi = mid else: lo = mid+1].
    The interval halves at every step, so [hi - lo] iterations suffice. *)
Fixpoint bisect_loop (n : nat) (a : list Q) (x : Q) (lo hi : nat) : nat :=
  match n with
  | O => lo
  | S n' =>
      if (lo <? hi)%nat then
        let mid := ((lo + hi) / 2)%nat in
        if Qltb x (nth mid a 0) then bisect_loop n' a x lo mid
        else bisect_loop n' a x (mid + 1)%nat hi
      else lo
  end.

Definition bisect (a : list Q) (x : Q) (lo hi : nat) : nat :=
  bisect_loop (hi - lo) a x lo hi.

(** [random.choices(population, weights=weights)[0]] *)
Definition choices {A} (population : list A) (weights : list Q) : M A :=
  let n := length population in
  let cum_weights := accumulate weights in
  if negb (length cum_weights =? n)%nat then raise ValueError
  else
    match last cum_weights with
    | None => raise IndexError                 (* cum_weights[-1] on [] *)
    | Some total =>
        if Qle_bool total 0 then raise ValueError
        else
          r <- random_random ;;
          match population !! bisect cum_weights (r * total) 0 (n - 1) with
          | Some x => ret x
          | None => raise IndexError
          end
    end.

(** [random.choice(seq)] *)
Definition choice {A} (seq : list A) : M A :=
  match seq with
  | [] => raise IndexError
  | _ =>
      i <- random_randbelow (length seq) ;;
      match seq !! i with
      | Some x => ret x
      | None => raise IndexError
      end
  end.

(** [random.randint(a, b)] *)
Definition randint (a b : Z) : M Z :=
  let width := (b + 1 - a)%Z in
  if (0 <? width)%Z then
    k <- random_randbelow (Z.to_nat width) ;; ret (a + Z.of_nat k)%Z
  else raise ValueError.

(** [random.uniform(a, b)] *)
Definition uniform (a b : Q) : M Q :=
  r <- random_random ;; ret (a + (b - a) * r).

(* ------------------------------------------------------------------ *)
(** * 2. Helper functions                                              *)
(* ------------------------------------------------------------------ *)

Definition choose_age_band : M (string * Z) :=
  band <- choices (keys AGE_BANDS) (map band_p (values AGE_BANDS)) ;;
  d <- lift (dict_get AGE_BANDS band) ;;
  let (low, high) := band_range d in
  age <- randint low high ;;
  ret (band, age).

Definition choose_gender : M string :=
  choices (keys GENDERS) (values GENDERS).

Definition choose_tier_city_state : M (string * string * string) :=
  tier <- choices (keys TIERS) TIER_PROBS ;;
  idx <- randint 0 9 ;;
  t <- lift (dict_get TIERS tier) ;;
  city <- lift (list_getitem (cities t) idx) ;;
  t' <- lift (dict_get TIERS tier) ;;
  state <- lift (list_getitem (states t') idx) ;;
  ret (tier, city, state).

Definition choose_price (tier : string) : M Q :=
  t <- lift (dict_get TIERS tier) ;;
  bucket <- choices PRICE_BUCKETS (price_weights t) ;;
  '(low, high) <- lift (dict_get PRICE_RANGES bucket) ;;
  x <- uniform (inject_Z low) (inject_Z high) ;;
  ret (round2 x).

(** Every product name [gen_user_row] can form within one category:
    [f"{brand} {item}"] for each brand and each item of the category. *)
Definition catalog_products (c : Category) : list string :=
  flat_map (fun brand => map (fun item => brand +:+ " " +:+ item) (items c)) (brands c).

(** The [defaultdict] built by the three loops of
    [combined_category_weights], before normalisation. *)
Definition raw_category_weights (age_pref gender_pref : list (string * Q))
  : list (string * Q) :=
  let weights := [] in
  let weights := fold_left (fun d '(cat, w) => dd_add d cat w) age_pref weights in
  let weights := fold_left (fun d '(cat, w) => dd_add d cat w) gender_pref weights in
  (* small smoothing for any category missing *)
  fold_left (fun d cat => dd_add d cat 0.001) (keys CATEGORIES) weights.

Definition combined_category_weights (age_band gender : string)
  : result (list string * list Q) :=
  match dict_get AGE_PREFS age_band with
  | Raise e => Raise e
  | Ok age_pref =>
      match dict_get GENDER_PREFS gender with
      | Raise e => Raise e
      | Ok gender_pref =>
          let weights := raw_category_weights age_pref gender_pref in
          match weights with
          | [] => Raise ValueError            (* unpacking an empty zip *)
          | _ =>
              let cats := keys weights in
              let wts := values weights in
              let total := sum wts in
              if Qeq_bool total 0 then Raise ZeroDivisionError
              else Ok (cats, map (fun w => w / total) wts)
          end
      end
  end.

(* ------------------------------------------------------------------ *)
(** * 3. Generation core                                               *)
(* ------------------------------------------------------------------ *)

(** The [while len(seen_products) < RECS_PER_USER] loop of [gen_user_row].
    [fuel] bounds the number of iterations; the loop of the script has no
    bound. *)
Fixpoint rec_loop (fuel : nat) (cats : list string) (weights : list Q) (tier : string)
    (seen_products : gset string) (rec_flat : list cell) : M (list cell) :=
  if decide (size seen_products < RECS_PER_USER)%nat then
    match fuel with
    | O => diverge
    | S fuel' =>
        category <- choices cats weights ;;
        c <- lift (dict_get CATEGORIES category) ;;
        item <- choice (items c) ;;
        c' <- lift (dict_get CATEGORIES category) ;;
        brand <- choice (brands c') ;;
        let product_name := brand +:+ " " +:+ item in
        if decide (product_name ∈ seen_products) then
          (* uniqueness guarantee *)
          rec_loop fuel' cats weights tier seen_products rec_flat
        else
          let seen_products := seen_products ∪ {[ product_name ]} in
          price <- choose_price tier ;;
          score <- (x <- uniform 0.1 1.0 ;; ret (round2 x)) ;;
          rec_loop fuel' cats weights tier seen_products
            (rec_flat ++ [CStr product_name; CStr category; CStr brand;
                          CFloat price; CFloat score])
    end
  else ret rec_flat.

Definition gen_user_row (fuel : nat) (idx : Z) : M (list cell) :=
  let user_id := "USER_" +:+ format_06d idx in
  '(age_band, age) <- choose_age_band ;;
  gender <- choose_gender ;;
  '(tier, city, state) <- choose_tier_city_state ;;
  '(cats, weights) <- lift (combined_category_weights age_band gender) ;;
  rec_flat <- rec_loop fuel cats weights tier ∅ [] ;;
  ret ([CStr user_id; CInt age; CStr gender; CStr state; CStr city; CStr tier]
         ++ rec_flat)%list.

Definition build_header : list string :=
  let hdr := ["user_id"; "age"; "gender"; "state"; "city"; "tier"] in
  fold_left
    (fun hdr i =>
       hdr ++ map (fun field => field +:+ "_" +:+ str_int i)
                  ["product"; "category"; "brand"; "price"; "recommendation_score"])
    (range 1 (Z.of_nat RECS_PER_USER + 1)) hdr.

(* ------------------------------------------------------------------ *)
(** * 4. Main CLI entry                                                *)
(* ------------------------------------------------------------------ *)

(** What [print] sends to standard output, kept as data. *)
Inductive event :=
| Progress (idx : Z)                                (* "...{idx:,} rows generated" *)
| Finished (rows : Z) (elapsed : Q) (out : string).

(** The process and its surroundings: the state of the module-level
    generator, the files by path, the readings [time.time()] is going to
    return, and what was printed. *)
Record World := {
  rng : G;
  fs : gmap string string;
  clock : list Q;
  stdout : list event
}.

Record Args := { rows : Z; out : string }.

(** [time.time()] *)
Definition time_time (w : World) : Q * World :=
  match clock w with
  | [] => (0, w)
  | t :: ts => (t, {| rng := rng w; fs := fs w; clock := ts; stdout := stdout w |})
  end.

(** The body of [for idx in range(1, args.rows + 1)]: [fh] is the text
    written to the open file so far. *)
Fixpoint write_rows (fuel : nat) (idxs : list Z) (fh : string) (printed : list event)
  : G -> option (result unit * string * list event * G) :=
  fun g =>
    match idxs with
    | [] => Some (Ok tt, fh, printed, g)
    | idx :: idxs' =>
        match gen_user_row fuel idx g with
        | None => None
        | Some (Raise e, g') => Some (Raise e, fh, printed, g')
        | Some (Ok row, g') =>
            let fh := fh +:+ csv_line row in
            let printed :=
              if (idx mod 10000 =? 0)%Z then printed ++ [Progress idx] else printed in
            write_rows fuel idxs' fh printed g'
        end
    end.

(** The sanity check at the end of [main], on the text of the re-opened
    file. *)
Definition sanity_check (content : string) : result unit :=
  let expected_cols := length build_header in
  let reader := file_lines content in
  match reader_next reader with                       (* skip header *)
  | Raise e => Raise e
  | Ok (_, reader) =>
      match reader_next reader with
      | Raise e => Raise e
      | Ok (first_row, _) =>
          if negb (length first_row =? expected_cols)%nat then
            Raise (SystemExit ("ERROR: expected " +:+ str_nat expected_cols
                               +:+ " columns, got " +:+ str_nat (length first_row)))
          else Ok tt
      end
  end.

(** [main()] after argument parsing.  The result is how the process ends
    ([Ok tt]: [main] returns; [Raise e]: [e] propagates to the top level)
    and the world it leaves.  Opening the output file is assumed to
    succeed. *)
Definition main (fuel : nat) (args : Args) (w : World) : option (result unit * World) :=
  let g := seed 42 in
  let (start, w) := time_time w in
  (* with args.out.open("w", newline="", encoding="utf-8") as fh *)
  let fh := csv_line (map CStr build_header) in
  match write_rows fuel (range 1 (rows args + 1)) fh (stdout w) g with
  | None => None
  | Some (r, fh, printed, g) =>
      let w := {| rng := g; fs := <[out args := fh]> (fs w);
                  clock := clock w; stdout := printed |} in
      match r with
      | Raise e => Some (Raise e, w)
      | Ok _ =>
          let (now, w) := time_time w in
          let elapsed := now - start in
          let w := {| rng := rng w; fs := fs w; clock := clock w;
                      stdout := stdout w ++ [Finished (rows args) elapsed (out args)] |} in
          (* Simple sanity check: verify column count *)
          match fs w !! out args with
          | None => Some (Raise FileNotFoundError, w)
          | Some content => Some (sanity_check content, w)
          end
      end
  end.

(** The exit status of the process: 0 when [main] returns; 1 for
    [sys.exit(msg)], which prints [msg], and for any other uncaught
    exception. *)
Definition exit_code (r : result unit) : Z :=
  match r with
  | Ok _ => 0
  | Raise _ => 1
  end.

End Sampling.

Arguments M G A : clear implicits.
Arguments World G : clear implicits.

(* ------------------------------------------------------------------ *)
(** * The second generator script (final_dataset.py)                   *)
(* ------------------------------------------------------------------ *)

(** [generate_record] and [build_dataset].  A record is a dict from column
    name to value, in insertion order; a [DataFrame] built from records and a
    column list is the table of the records' values at those columns, a
    missing one being [None] (NaN).  The module-level loop that writes the
    frames with [DataFrame.to_csv] is not modelled. *)
Module FinalDataset.

Definition dataset_sizes : list Z := [1000; 10000; 100000]%Z.

(** Cities (tier-1, tier-2 mix) *)
Definition cities : list string :=
  [ "Ahmedabad"; "Bangalore"; "Chennai"; "Delhi"; "Hyderabad"; "Kolkata"; "Mumbai";
    "Pune"; "Jaipur"; "Chandigarh"; "Lucknow"; "Bhopal"; "Indore"; "Coimbatore";
    "Nagpur"; "Visakhapatnam"; "Vadodara"; "Surat"; "Patna"; "Thiruvananthapuram" ].

Record CatalogItem := {
  product_category : string;
  category : string;
  brands : list string;
  cost_range : Z * Z
}.

(** Product catalog (10 distinct product categories) *)
Definition product_catalog : list CatalogItem :=
  [ {| product_category := "Smartphone"; category := "Electronics";
       brands := ["Apple"; "Samsung"; "Xiaomi"; "OnePlus"; "Realme"];
       cost_range := (15000, 100000)%Z |};
    {| product_category := "Laptop"; category := "Electronics";
       brands := ["Apple"; "Dell"; "HP"; "Lenovo"; "Asus"];
       cost_range := (30000, 150000)%Z |};
    {| product_category := "Smartwatch"; category := "Electronics";
       brands := ["Apple"; "Samsung"; "Fitbit"; "Noise"];
       cost_range := (2000, 50000)%Z |};
    {| product_category := "Earbuds"; category := "Electronics";
       brands := ["boAt"; "JBL"; "Sony"; "Apple"];
       cost_range := (1000, 20000)%Z |};
    {| product_category := "T-shirt"; category := "Fashion";
       brands := ["Nike"; "Adidas"; "H&M"; "Uniqlo"; "Puma"];
       cost_range := (300, 2000)%Z |};
    {| product_category := "Jeans"; category := "Fashion";
       brands := ["Levi's"; "Wrangler"; "Lee"; "Spykar"];
       cost_range := (800, 5000)%Z |};
    {| product_category := "Sneakers"; category := "Fashion";
       brands := ["Nike"; "Adidas"; "Puma"; "Reebok"];
       cost_range := (2000, 12000)%Z |};
    {| product_category := "Mixer Grinder"; category := "Home & Kitchen";
       brands := ["Philips"; "Prestige"; "Bajaj"; "Butterfly"];
       cost_range := (1500, 10000)%Z |};
    {| product_category := "Yoga Mat"; category := "Sports & Outdoors";
       brands := ["Nivia"; "Decathlon"; "Domyos"; "Boldfit"];
       cost_range := (300, 3000)%Z |};
    {| product_category := "Face Wash"; category := "Beauty & Personal Care";
       brands := ["Himalaya"; "Mamaearth"; "Ponds"; "Cetaphil"];
       cost_range := (100, 800)%Z |} ].

(** The columns of the data frame [build_dataset] returns. *)
Definition COLUMNS : list string :=
  [ "user_id"; "Age"; "Gender"; "Location"; "product_id";
    "Product"; "Brand"; "Gender_category"; "Brand_category";
    "product_category"; "category"; "cost" ].

Record DataFrame := {
  columns : list string;
  data : list (list (option cell))
}.

(** [pd.DataFrame(records, columns=columns)] for a list of dicts. *)
Definition make_frame (records : list (list (string * cell))) (columns : list string)
  : DataFrame :=
  {| columns := columns;
     data := map (fun record =>
                    map (fun col => match dict_get record col with
                                    | Ok v => Some v
                                    | Raise _ => None
                                    end) columns)
                 records |}.

Section Generator.
Context {G : Type} `{PRNG G}.

Local Notation "x <- m ;; k" := (bind m (fun x => k))
  (at level 20, m at level 99, k at level 200).

(** [random.seed(a)] *)
Definition random_seed (a : Z) : M G unit := fun _ => Some (Ok tt, seed a).

(** Generate a single row adhering to the schema. *)
Definition generate_record (user_id : string) (product_id : Z)
  : M G (list (string * cell)) :=
  (* Demographics *)
  age <- randint 18 60 ;;
  gender <- choice ["M"; "F"] ;;
  location <- choice cities ;;
  (* Product details *)
  item <- choice product_catalog ;;
  brand <- choice (brands item) ;;
  let prod_cat := product_category item in
  let category := category item in
  cost <- randint (fst (cost_range item)) (snd (cost_range item)) ;;
  let product_name := brand +:+ " " +:+ prod_cat in
  ret [ ("user_id", CStr user_id);
        ("Age", CInt age);
        ("Gender", CStr gender);
        ("Location", CStr location);
        ("product_id", CInt product_id);
        ("Product", CStr product_name);
        ("Brand", CStr brand);
        ("Gender_category", CStr gender);
        ("Brand_category", CStr brand);
        ("product_category", CStr prod_cat);
        ("category", CStr category);
        ("cost", CStr (str_int cost +:+ " INR")) ].

(** The loop [for pid in range(1, n_rows + 1)] of [build_dataset]. *)
Fixpoint gen_records (pids : list Z) (user_ids : list string)
    (records : list (list (string * cell))) : M G (list (list (string * cell))) :=
  match pids with
  | [] => ret records
  | pid :: pids' =>
      user_id <- choice user_ids ;;          (* repeat users across products *)
      record <- generate_record user_id (pid + 500) ;;
      gen_records pids' user_ids (records ++ [record])
  end.

(** Create a DataFrame with [n_rows] synthetic recommendation-system rows. *)
Definition build_dataset (n_rows : Z) (seed : option Z) : M G DataFrame :=
  _ <- match seed with
       | Some a => random_seed a
       | None => ret tt
       end ;;
  let approx_products_per_user := 10%Z in
  let n_users := Z.max 1 (n_rows / approx_products_per_user) in
  (* Pre-generate user IDs *)
  let user_ids := map format_06d (range 1 (n_users + 1)) in
  records <- gen_records (range 1 (n_rows + 1)) user_ids [] ;;
  ret (make_frame records COLUMNS).

End Generator.

End FinalDataset.

(* ------------------------------------------------------------------ *)
(** * Notions used to state the properties                             *)
(* ------------------------------------------------------------------ *)

(** A counter-based generator for running the model on concrete inputs:
    the state is a counter that every draw advances. *)
Definition counter_random (s : nat) : Q * nat :=
  (Z.of_nat ((s * 37 + 11) mod 101) # 101, S s).

Definition counter_randbelow (n s : nat) : nat * nat :=
  (((s * 7 + 3) mod n)%nat, S s).

(** The categories and weights of an 18-25 year old male user, the user a
    generator that always returns its smallest draw produces. *)
Definition stuck_cats : list string := Eval vm_compute in
  match combined_category_weights "18-25" "Male" with Ok (c, _) => c | _ => [] end.
Definition stuck_weights : list Q := Eval vm_compute in
  match combined_category_weights "18-25" "Male" with Ok (_, w) => w | _ => [] end.

(** A text is [safe] when it holds no comma, quote, carriage return or line
    feed: [csv.writer] writes it as it is. *)
Definition safe (s : string) : Prop := has_special s = false.

(** The product name of a recommendation. *)
Definition rec_name (r : string * string * string * Q * Q) : string := r.1.1.1.1.

(** The three texts of a recommendation are [safe]. *)
Definition rec_safe (r : string * string * string * Q * Q) : Prop :=
  safe r.1.1.1.1 /\ safe r.1.1.1.2 /\ safe r.1.1.2.

(** The rows of the file: the six identity cells followed by the cells of
    [RECS_PER_USER] recommendations with pairwise distinct product names,
    all texts [safe]. *)
Definition user_row (idx : Z) (row : list cell) : Prop :=
  exists age gender state city tier recs,
    row = [CStr ("USER_" +:+ format_06d idx); CInt age; CStr gender;
           CStr state; CStr city; CStr tier] ++ flat_map rec_cells recs /\
    (safe gender /\ safe state /\ safe city /\ safe tier) /\
    NoDup (map rec_name recs) /\
    length recs = RECS_PER_USER /\
    Forall rec_safe recs.

(** The text holds a carriage return or a line feed. *)
Fixpoint has_newline (s : string) : bool :=
  match s with
  | EmptyString => false
  | String c s' => is_newline c || has_newline s'
  end.

(** A record of safe texts as [csv.writer] writes it, and as a reader gets
    it from a file opened in text mode. *)
Definition plain_line (texts : list string) : string :=
  String.concat "," texts +:+ CRLF.

Definition read_line (texts : list string) : string :=
  String.concat "," texts +:+ String LF EmptyString.

(** The text of a file of such records. *)
Fixpoint file_text (records : list (list string)) : string :=
  match records with
  | [] => EmptyString
  | r :: rs => plain_line r +:+ file_text rs
  end.

(** Feeding the characters of a text to the parser, without the end-of-line
    signal. *)
Fixpoint feed (p : parser) (s : string) : option parser :=
  match s with
  | EmptyString => Some p
  | String c s' =>
      match parse_process_char p (Some c) with
      | None => None
      | Some p' => feed p' s'
      end
  end.

(** The states in which the parser is outside a quoted field. *)
Definition unquoted (p : parser) : Prop :=
  state p = START_RECORD \/ state p = START_FIELD \/ state p = IN_FIELD.

(** [d.get(c, 0)]: the weight a table gives a category, 0 when it has
    none. *)
Definition share (d : list (string * Q)) (c : string) : Q :=
  match dict_get d c with
  | Ok w => w
  | Raise _ => 0
  end.

(** A recommendation drawn from the catalog: its brand and an item of its
    category form the product name, its price lies in the range of one of
    the four price buckets, and its score is a number of hundredths between
    0.1 and 1. *)
Definition rec_wf (r : string * string * string * Q * Q) : Prop :=
  let '(product_name, category, brand, price, score) := r in
  (exists c item,
      dict_get CATEGORIES category = Ok c /\ item ∈ items c /\ brand ∈ brands c /\
      product_name = brand +:+ " " +:+ item) /\
  (exists bucket low high,
      bucket ∈ PRICE_BUCKETS /\ dict_get PRICE_RANGES bucket = Ok (low, high) /\
      inject_Z low <= price <= inject_Z high) /\
  0.1 <= score <= 1 /\
  exists k : Z, score == inject_Z k / 100.

(** Reading a string of decimal digits as a number. *)
Definition decode_digits (s : string) : option N :=
  option_map N.of_uint (NilEmpty.uint_of_string s).

(** The progress lines of a run over the indices [idxs]: one for every
    multiple of 10000. *)
Definition progress_events (idxs : list Z) : list event :=
  map Progress (filter (fun idx => (idx mod 10000 = 0)%Z) idxs).

(** The record [generate_record] builds from its draws. *)
Definition generated (user_id : string) (product_id : Z)
    (record : list (string * cell)) : Prop :=
  exists age gender location item brand cost,
    (18 <= age <= 60)%Z /\
    gender ∈ ["M"; "F"] /\
    location ∈ FinalDataset.cities /\
    item ∈ FinalDataset.product_catalog /\
    brand ∈ FinalDataset.brands item /\
    (fst (FinalDataset.cost_range item) <= cost <= snd (FinalDataset.cost_range item))%Z /\
    record = [ ("user_id", CStr user_id);
               ("Age", CInt age);
               ("Gender", CStr gender);
               ("Location", CStr location);
               ("product_id", CInt product_id);
               ("Product", CStr (brand +:+ " " +:+ FinalDataset.product_category item));
               ("Brand", CStr brand);
               ("Gender_category", CStr gender);
               ("Brand_category", CStr brand);
               ("product_category", CStr (FinalDataset.product_category item));
               ("category", CStr (FinalDataset.category item));
               ("cost", CStr (str_int cost +:+ " INR")) ].

(* ================================================================== *)
(** * Properties                                                       *)
(* ================================================================== *)

(** ** Rounding *)

Lemma Qltb_true x y : Qltb x y = true <-> x < y.
Proof.
  unfold Qltb. rewrite negb_true_iff. split.
  - intros Hb. apply Qnot_le_lt. intros Hle. apply Qle_bool_iff in Hle. congruence.
  - intros Hlt. destruct (Qle_bool y x) eqn:E; [|reflexivity].
    apply Qle_bool_iff in E. lra.
Qed.

Lemma Qltb_false x y : Qltb x y = false <-> y <= x.
Proof.
  unfold Qltb. rewrite negb_false_iff. apply Qle_bool_iff.
Qed.

(** [round] never leaves the interval between two integers. *)
Lemma round_half_even_bounds (x : Q) (lo hi : Z) :
  inject_Z lo <= x -> x <= inject_Z hi ->
  (lo <= round_half_even x <= hi)%Z.
Proof.
  intros Hlo Hhi.
  assert (Hf1 : (lo <= Qfloor x)%Z).
  { rewrite <- (Qfloor_Z lo). now apply Qfloor_resp_le. }
  assert (Hf2 : (Qfloor x <= hi)%Z).
  { rewrite <- (Qfloor_Z hi). now apply Qfloor_resp_le. }
  pose proof (Qfloor_le x) as Hfl.
  unfold round_half_even.
  destruct (Qltb (x - inject_Z (Qfloor x)) 0.5) eqn:E1; [lia|].
  apply Qltb_false in E1.
  assert (Hlt : (Qfloor x < hi)%Z).
  { destruct (Z.eq_dec (Qfloor x) hi) as [Heq|]; [|lia].
    rewrite Heq in E1. lra. }
  destruct (Qltb 0.5 (x - inject_Z (Qfloor x))); [lia|].
  destruct (Z.even (Qfloor x)); lia.
Qed.

Lemma round2_bounds (x : Q) (lo hi : Z) :
  inject_Z lo <= x <= inject_Z hi ->
  inject_Z lo <= round2 x <= inject_Z hi.
Proof.
  intros [Hlo Hhi]. unfold round2.
  destruct (round_half_even_bounds (x * 100) (lo * 100) (hi * 100)) as [H1 H2].
  - rewrite inject_Z_mult. change (inject_Z 100) with 100. nra.
  - rewrite inject_Z_mult. change (inject_Z 100) with 100. nra.
  - rewrite Zle_Qle in H1, H2. rewrite inject_Z_mult in H1, H2.
    change (inject_Z 100) with 100 in *.
    split.
    + apply Qle_shift_div_l; [reflexivity | exact H1].
    + apply Qle_shift_div_r; [reflexivity | exact H2].
Qed.

(** The result of [round(x, 2)] is a whole number of hundredths. *)
Lemma round2_hundredths (x : Q) : exists k : Z, round2 x == inject_Z k / 100.
Proof. exists (round_half_even (x * 100)). reflexivity. Qed.

(** ** Binary search *)

Lemma mid_bounds (lo hi : nat) :
  (lo < hi)%nat -> (lo <= (lo + hi) / 2 /\ (lo + hi) / 2 < hi)%nat.
Proof.
  intros Hlt.
  pose proof (Nat.div_mod_eq (lo + hi) 2).
  pose proof (Nat.mod_upper_bound (lo + hi) 2).
  lia.
Qed.

Lemma bisect_loop_bounds n a x lo hi :
  (lo <= hi)%nat -> (lo <= bisect_loop n a x lo hi <= hi)%nat.
Proof.
  revert lo hi. induction n as [|n IH]; intros lo hi Hle; cbn [bisect_loop]; [lia|].
  destruct (lo <? hi)%nat eqn:E; [|lia].
  apply Nat.ltb_lt in E.
  pose proof (mid_bounds lo hi E) as Hmid.
  destruct (Qltb x (nth ((lo + hi) / 2) a 0)).
  - specialize (IH lo ((lo + hi) / 2)%nat). lia.
  - specialize (IH ((lo + hi) / 2 + 1)%nat hi). lia.
Qed.

Lemma bisect_bounds a x lo hi :
  (lo <= hi)%nat -> (lo <= bisect a x lo hi <= hi)%nat.
Proof. apply bisect_loop_bounds. Qed.

(** [hi - lo] iterations are enough: with more fuel the search returns the
    same index, so [bisect] is the loop run to its end. *)
Lemma bisect_loop_fuel n m a x lo hi :
  (hi - lo <= n)%nat -> (hi - lo <= m)%nat ->
  bisect_loop n a x lo hi = bisect_loop m a x lo hi.
Proof.
  revert m lo hi.
  induction n as [|n IH]; intros [|m] lo hi Hn Hm; cbn [bisect_loop]; try reflexivity.
  - replace (lo <? hi)%nat with false; [reflexivity|].
    symmetry. apply Nat.ltb_ge. lia.
  - replace (lo <? hi)%nat with false; [reflexivity|].
    symmetry. apply Nat.ltb_ge. lia.
  - destruct (lo <? hi)%nat eqn:E; [|reflexivity].
    apply Nat.ltb_lt in E.
    pose proof (mid_bounds lo hi E) as Hmid.
    destruct (Qltb x (nth ((lo + hi) / 2) a 0)); apply IH; lia.
Qed.

Lemma bisect_loop_enough n a x lo hi :
  (hi - lo <= n)%nat -> bisect_loop n a x lo hi = bisect a x lo hi.
Proof. intros Hn. unfold bisect. apply bisect_loop_fuel; lia. Qed.

(** ** The sampling monad and the primitives of [random] *)

Section SamplingFacts.
Context {G : Type} `{PRNG G}.

Lemma bind_inv {A B} (m : M G A) (k : A -> M G B) g r g2 :
  bind m k g = Some (r, g2) ->
  (exists a g1, m g = Some (Ok a, g1) /\ k a g1 = Some (r, g2)) \/
  (exists e, m g = Some (Raise e, g2) /\ r = Raise e).
Proof.
  unfold bind. destruct (m g) as [[[a|e] g1]|]; intros Hk.
  - left. eauto.
  - right. inversion Hk; subst. eauto.
  - discriminate.
Qed.

Lemma bind_ok {A B} (m : M G A) (k : A -> M G B) g a g1 :
  m g = Some (Ok a, g1) -> bind m k g = k a g1.
Proof. unfold bind. now intros ->. Qed.

Lemma length_accumulate_from acc ws : length (accumulate_from acc ws) = length ws.
Proof. revert acc. induction ws as [|w ws IH]; intros acc; simpl; [|rewrite IH]; reflexivity. Qed.

Lemma length_accumulate ws : length (accumulate ws) = length ws.
Proof. destruct ws; simpl; [|rewrite length_accumulate_from]; reflexivity. Qed.

(** A weighted choice over as many weights as candidates, with a positive
    total, returns the candidate at the index found by the binary search and
    consumes one [random()]. *)
Lemma choices_ok {A} (population : list A) (weights : list Q) (total : Q) g :
  length weights = length population ->
  last (accumulate weights) = Some total ->
  0 < total ->
  exists x,
    choices population weights g = Some (Ok x, snd (random g)) /\
    population !! bisect (accumulate weights) (fst (random g) * total) 0
                         (length population - 1) = Some x.
Proof.
  intros Hlen Hlast Hpos. unfold choices.
  rewrite length_accumulate, Hlen, Nat.eqb_refl. cbn [negb]. rewrite Hlast.
  destruct (Qle_bool total 0) eqn:E.
  { apply Qle_bool_iff in E. lra. }
  assert (Hne : (0 < length population)%nat).
  { rewrite <- Hlen, <- length_accumulate.
    destruct (accumulate weights); [discriminate | simpl; lia]. }
  unfold bind, random_random. destruct (random g) as [r g1]. cbn [fst snd].
  pose proof (bisect_bounds (accumulate weights) (r * total) 0
                (length population - 1) ltac:(lia)) as Hb.
  destruct (lookup_lt_is_Some_2 population
              (bisect (accumulate weights) (r * total) 0 (length population - 1))
              ltac:(lia)) as [x Hx].
  exists x. rewrite Hx. split; reflexivity.
Qed.

Lemma choice_ok {A} (seq : list A) g :
  seq <> [] ->
  exists x,
    choice seq g = Some (Ok x, snd (randbelow (length seq) g)) /\
    seq !! fst (randbelow (length seq) g) = Some x.
Proof.
  intros Hne. unfold choice. destruct seq as [|a seq']; [congruence|].
  set (seq := a :: seq') in *.
  unfold bind, random_randbelow.
  pose proof (randbelow_range (length seq) g ltac:(simpl; lia)) as Hr.
  destruct (randbelow (length seq) g) as [i g1]. cbn [fst snd] in *.
  destruct (lookup_lt_is_Some_2 seq i Hr) as [x Hx].
  exists x. rewrite Hx. split; reflexivity.
Qed.

Lemma randint_ok (a b : Z) g :
  (a <= b)%Z ->
  let k := fst (randbelow (Z.to_nat (b + 1 - a)) g) in
  randint a b g = Some (Ok (a + Z.of_nat k)%Z, snd (randbelow (Z.to_nat (b + 1 - a)) g))
  /\ (k < Z.to_nat (b + 1 - a))%nat.
Proof.
  intros Hab k. unfold randint.
  destruct (0 <? b + 1 - a)%Z eqn:E; [|apply Z.ltb_ge in E; lia].
  unfold bind, random_randbelow, ret; subst k.
  pose proof (randbelow_range (Z.to_nat (b + 1 - a)) g ltac:(lia)) as Hr.
  destruct (randbelow (Z.to_nat (b + 1 - a)) g) as [i g1]. cbn [fst snd] in *.
  split; [reflexivity | exact Hr].
Qed.

Lemma uniform_ok (a b : Q) g :
  uniform a b g = Some (Ok (a + (b - a) * fst (random g)), snd (random g)).
Proof.
  unfold uniform, bind, random_random, ret.
  destruct (random g) as [r g1]. reflexivity.
Qed.

(** [uniform(a, b)] stays between its bounds. *)
Lemma uniform_range (a b : Q) g :
  a <= b -> a <= a + (b - a) * fst (random g) <= b.
Proof.
  intros Hab. pose proof (random_range g) as [H0 H1]. split; nra.
Qed.

End SamplingFacts.

(** ** Two concrete generators *)

Lemma counter_random_range s : 0 <= fst (counter_random s) < 1.
Proof.
  unfold counter_random; cbn [fst].
  pose proof (Nat.mod_upper_bound (s * 37 + 11) 101 ltac:(lia)) as Hb.
  unfold Qle, Qlt; cbn [Qnum Qden]. lia.
Qed.

Lemma counter_randbelow_range n s :
  (0 < n)%nat -> (fst (counter_randbelow n s) < n)%nat.
Proof. intros Hn; cbn [counter_randbelow fst]. apply Nat.mod_upper_bound; lia. Qed.

#[export] Instance counter_prng : PRNG nat := {|
  seed := Z.to_nat;
  random := counter_random;
  randbelow := counter_randbelow;
  random_range := counter_random_range;
  randbelow_range := counter_randbelow_range
|}.

(** A generator that returns the smallest value at every draw. *)
Lemma stuck_random_range (g : unit) : 0 <= fst (0, g) < 1.
Proof. cbn. lra. Qed.

Lemma stuck_randbelow_range (n : nat) (g : unit) :
  (0 < n)%nat -> (fst (0%nat, g) < n)%nat.
Proof. cbn. lia. Qed.

Definition stuck_prng : PRNG unit := {|
  seed := fun _ => tt;
  random := fun g => (0, g);
  randbelow := fun _ g => (0%nat, g);
  random_range := stuck_random_range;
  randbelow_range := stuck_randbelow_range
|}.

(** Finite case analysis on membership in a literal list. *)
Ltac elem_cases H :=
  repeat match type of H with
         | _ ∈ _ :: _ => apply elem_of_cons in H as [-> | H]
         | _ ∈ [] => apply elem_of_nil in H; contradiction
         end.

(** ** Tier, city and state *)

Lemma list_getitem_nat {A} (l : list A) (k : nat) :
  list_getitem l (0 + Z.of_nat k)
  = match l !! k with Some x => Ok x | None => Raise IndexError end.
Proof.
  unfold list_getitem. rewrite Z.add_0_l.
  destruct (Z.of_nat k <? 0)%Z eqn:E; [apply Z.ltb_lt in E; lia|].
  now rewrite E, Nat2Z.id.
Qed.

Lemma tier_lookup (tier : string) :
  tier ∈ keys TIERS ->
  exists t, dict_get TIERS tier = Ok t /\
            length (cities t) = 10%nat /\ length (states t) = 10%nat /\
            length (price_weights t) = 4%nat.
Proof.
  intros Hin. cbn in Hin. elem_cases Hin; eexists; repeat split; reflexivity.
Qed.

Lemma tier_safe (tier : string) (t : Tier) :
  tier ∈ keys TIERS -> dict_get TIERS tier = Ok t ->
  has_special tier = false /\
  Forall (fun s => has_special s = false) (cities t) /\
  Forall (fun s => has_special s = false) (states t).
Proof.
  intros Hin. cbn in Hin.
  elem_cases Hin; intros [= <-]; (split; [reflexivity|]);
    split; apply (bool_decide_unpack _); vm_compute; reflexivity.
Qed.

(** The weighted choice of the tier consumes one [random()], the index one
    [_randbelow(10)]; city and state are read at that index. *)
Lemma choose_tier_city_state_spec {G : Type} `{PRNG G} (g : G) :
  let g1 := snd (random g) in
  let idx := fst (randbelow 10 g1) in
  exists tier t city state,
    choose_tier_city_state g = Some (Ok (tier, city, state), snd (randbelow 10 g1)) /\
    tier ∈ keys TIERS /\
    dict_get TIERS tier = Ok t /\
    (idx < 10)%nat /\
    cities t !! idx = Some city /\
    states t !! idx = Some state.
Proof.
  intros g1 idx.
  destruct (choices_ok (keys TIERS) TIER_PROBS _ g eq_refl eq_refl eq_refl)
    as (tier & Hch & Hlk).
  apply list_elem_of_lookup_2 in Hlk.
  destruct (tier_lookup tier Hlk) as (t & Ht & Hc & Hs & _).
  destruct (randint_ok 0 9 g1 ltac:(lia)) as [Hri Hk].
  change (Z.to_nat (9 + 1 - 0)) with 10%nat in Hri, Hk.
  fold idx in Hri, Hk.
  destruct (lookup_lt_is_Some_2 (cities t) idx ltac:(lia)) as [city Hcity].
  destruct (lookup_lt_is_Some_2 (states t) idx ltac:(lia)) as [state Hstate].
  exists tier, t, city, state.
  split; [|auto].
  unfold choose_tier_city_state.
  rewrite (bind_ok _ _ _ _ _ Hch). fold g1.
  rewrite (bind_ok _ _ _ _ _ Hri).
  unfold bind, lift. rewrite Ht.
  rewrite !(list_getitem_nat _ idx), Hcity, Hstate. reflexivity.
Qed.

(** C6: [choose_tier_city_state] always returns, and the city and the state
    it returns stand at one and the same index of the chosen tier's [cities]
    and [states] lists: the index drawn by [randint(0, 9)] right after the
    weighted choice of the tier. *)
Theorem choose_tier_city_state_paired {G : Type} `{PRNG G} (g : G) :
  let g1 := snd (random g) in
  let idx := fst (randbelow 10 g1) in
  exists tier t city state,
    choose_tier_city_state g = Some (Ok (tier, city, state), snd (randbelow 10 g1)) /\
    tier ∈ keys TIERS /\
    dict_get TIERS tier = Ok t /\
    (idx < 10)%nat /\
    cities t !! idx = Some city /\
    states t !! idx = Some state.
Proof. exact (choose_tier_city_state_spec g). Qed.

(** ** Prices *)

Lemma bucket_lookup (bucket : string) :
  bucket ∈ PRICE_BUCKETS ->
  exists low high, dict_get PRICE_RANGES bucket = Ok (low, high) /\ (low <= high)%Z.
Proof.
  intros Hin. unfold PRICE_BUCKETS in Hin.
  elem_cases Hin; do 2 eexists; (split; [reflexivity | lia]).
Qed.

Lemma price_weights_total (tier : string) (t : Tier) :
  dict_get TIERS tier = Ok t ->
  exists total, last (accumulate (price_weights t)) = Some total /\ 0 < total.
Proof.
  unfold TIERS; cbn [dict_get].
  repeat (destruct (String.eqb _ tier);
          [intros [= <-]; eexists; split; reflexivity |]).
  discriminate.
Qed.

(** The bucket comes from one weighted choice, the price from one
    [uniform] draw in the bucket's range. *)
Lemma choose_price_spec {G : Type} `{PRNG G} (tier : string) (g : G) :
  tier ∈ keys TIERS ->
  exists t bucket low high g1,
    dict_get TIERS tier = Ok t /\
    choices PRICE_BUCKETS (price_weights t) g = Some (Ok bucket, g1) /\
    bucket ∈ PRICE_BUCKETS /\
    dict_get PRICE_RANGES bucket = Ok (low, high) /\
    let price :=
      round2 (inject_Z low + (inject_Z high - inject_Z low) * fst (random g1)) in
    choose_price tier g = Some (Ok price, snd (random g1)) /\
    inject_Z low <= price <= inject_Z high /\
    exists k : Z, price == inject_Z k / 100.
Proof.
  intros Hin.
  destruct (tier_lookup tier Hin) as (t & Ht & _ & _ & Hw).
  destruct (price_weights_total tier t Ht) as (total & Hlast & Hpos).
  destruct (choices_ok PRICE_BUCKETS (price_weights t) total g Hw Hlast Hpos)
    as (bucket & Hch & Hlk).
  apply list_elem_of_lookup_2 in Hlk.
  destruct (bucket_lookup bucket Hlk) as (low & high & Hr & Hle).
  exists t, bucket, low, high, (snd (random g)).
  refine (conj Ht (conj Hch (conj Hlk (conj Hr (conj _ (conj _ _)))))).
  - unfold choose_price, bind at 1, lift. rewrite Ht.
    rewrite (bind_ok _ _ _ _ _ Hch).
    unfold bind at 1, lift. rewrite Hr.
    unfold bind. rewrite uniform_ok. reflexivity.
  - apply round2_bounds. apply uniform_range. rewrite <- Zle_Qle. exact Hle.
  - apply round2_hundredths.
Qed.



(** ** Catalog sizing *)

(** C8: every category of [CATEGORIES] offers at least [RECS_PER_USER] = 10
    distinct brand-item combinations: its brands are pairwise distinct, its
    items are pairwise distinct, there are at least 10 (brand, item) pairs,
    and no two pairs form the same product name. *)
Theorem catalog_sizing :
  Forall (fun c : Category =>
            NoDup (brands c) /\ NoDup (items c) /\
            (RECS_PER_USER <= length (brands c) * length (items c))%nat /\
            length (catalog_products c) = (length (brands c) * length (items c))%nat /\
            NoDup (catalog_products c))
         (values CATEGORIES).
Proof.
  apply (bool_decide_unpack _). vm_compute. reflexivity.
Qed.

(** ** Category weights *)

Lemma fold_left_Qplus (xs : list Q) (a : Q) : fold_left Qplus xs a == a + sum xs.
Proof.
  unfold sum. revert a. induction xs as [|x xs IH]; intros a; cbn [fold_left].
  - lra.
  - rewrite (IH (a + x)), (IH (0 + x)). lra.
Qed.

Lemma sum_cons (x : Q) (xs : list Q) : sum (x :: xs) == x + sum xs.
Proof. unfold sum at 1. cbn [fold_left]. rewrite fold_left_Qplus. lra. Qed.

Lemma sum_map_div (xs : list Q) (t : Q) :
  ~ t == 0 -> sum (map (fun w => w / t) xs) == sum xs / t.
Proof.
  intros Ht. induction xs as [|x xs IH].
  - cbn. field. exact Ht.
  - cbn [map]. rewrite !sum_cons, IH. field. exact Ht.
Qed.

(** Dividing every weight by the sum gives weights that sum to 1. *)
Lemma normalized_sum (wts : list Q) :
  ~ sum wts == 0 -> sum (map (fun w => w / sum wts) wts) == 1.
Proof.
  intros Hne. rewrite sum_map_div by exact Hne. field. exact Hne.
Qed.

Lemma combined_category_weights_eq (age_band gender : string)
    (age_pref gender_pref : list (string * Q)) :
  dict_get AGE_PREFS age_band = Ok age_pref ->
  dict_get GENDER_PREFS gender = Ok gender_pref ->
  let raw := raw_category_weights age_pref gender_pref in
  0 < sum (values raw) ->
  combined_category_weights age_band gender
  = Ok (keys raw, map (fun w => w / sum (values raw)) (values raw)).
Proof.
  intros Ha Hg raw Hpos. unfold combined_category_weights.
  rewrite Ha, Hg. fold raw.
  destruct raw as [|kv raw'] eqn:E.
  - exfalso. cbn in Hpos. lra.
  - destruct (Qeq_bool (sum (values (kv :: raw'))) 0) eqn:Ez; [|reflexivity].
    apply Qeq_bool_iff in Ez. lra.
Qed.

Ltac forall_Q := repeat (constructor; [by vm_compute|]); constructor.

(** What [combined_category_weights] returns for the age bands and genders
    of the configuration. *)
Lemma combined_category_weights_spec (age_band gender : string) :
  age_band ∈ keys AGE_BANDS ->
  gender ∈ keys GENDERS ->
  exists age_pref gender_pref cats wts,
    dict_get AGE_PREFS age_band = Ok age_pref /\
    dict_get GENDER_PREFS gender = Ok gender_pref /\
    combined_category_weights age_band gender = Ok (cats, wts) /\
    cats = keys (raw_category_weights age_pref gender_pref) /\
    Forall (fun w => 0.001 <= w) (values (raw_category_weights age_pref gender_pref)) /\
    length wts = length cats /\
    NoDup cats /\
    (forall cat, cat ∈ cats <-> cat ∈ keys CATEGORIES) /\
    Forall (fun w => 0 < w) wts /\
    sum wts == 1.
Proof.
  intros Ha Hg. cbn in Ha, Hg.
  assert (Hcase : exists age_pref gender_pref,
             dict_get AGE_PREFS age_band = Ok age_pref /\
             dict_get GENDER_PREFS gender = Ok gender_pref /\
             let raw := raw_category_weights age_pref gender_pref in
             0 < sum (values raw) /\
             Forall (fun w => 0.001 <= w) (values raw) /\
             NoDup (keys raw) /\
             Forall (fun cat => cat ∈ keys CATEGORIES) (keys raw) /\
             Forall (fun cat => cat ∈ keys raw) (keys CATEGORIES)).
  { elem_cases Ha; elem_cases Hg; eexists _, _;
      (split; [reflexivity|]); (split; [reflexivity|]);
      (split; [by vm_compute|]); (split; [forall_Q|]);
      apply (bool_decide_unpack _); vm_compute; reflexivity. }
  destruct Hcase as (age_pref & gender_pref & Hap & Hgp & Hpos & Hmin & Hnd & Hsub & Hsup).
  set (raw := raw_category_weights age_pref gender_pref) in *.
  exists age_pref, gender_pref, (keys raw),
    (map (fun w => w / sum (values raw)) (values raw)).
  refine (conj Hap (conj Hgp (conj _ (conj eq_refl (conj Hmin (conj _ (conj Hnd
          (conj _ (conj _ _))))))))).
  - now apply combined_category_weights_eq.
  - unfold keys, values. now rewrite !length_map.
  - intros cat. rewrite Forall_forall in Hsub, Hsup. split; auto.
  - apply Forall_forall. intros w Hw. apply list_elem_of_fmap in Hw as (w0 & -> & Hw0).
    rewrite Forall_forall in Hmin. specialize (Hmin w0 Hw0).
    apply Qlt_shift_div_l; lra.
  - apply normalized_sum. lra.
Qed.



(** ** Text the csv writer leaves unquoted *)

Lemma has_special_app (s1 s2 : string) :
  has_special (s1 +:+ s2) = has_special s1 || has_special s2.
Proof.
  induction s1 as [|c s1 IH]; simpl; [reflexivity|].
  rewrite IH. now rewrite orb_assoc.
Qed.

Lemma safe_app (s1 s2 : string) : safe s1 -> safe s2 -> safe (s1 +:+ s2).
Proof. unfold safe. rewrite has_special_app. now intros -> ->. Qed.

Lemma safe_string_of_uint (d : Decimal.uint) : safe (NilEmpty.string_of_uint d).
Proof. unfold safe. induction d; cbn; auto. Qed.

Lemma safe_NilZero_uint (d : Decimal.uint) : safe (NilZero.string_of_uint d).
Proof.
  unfold NilZero.string_of_uint. destruct d; try apply safe_string_of_uint. reflexivity.
Qed.

Lemma safe_str_int (z : Z) : safe (str_int z).
Proof.
  unfold str_int, NilZero.string_of_int. destruct (Z.to_int z) as [d|d].
  - apply safe_NilZero_uint.
  - change (String "-" (NilZero.string_of_uint d))
      with ("-" +:+ NilZero.string_of_uint d).
    apply safe_app; [reflexivity | apply safe_NilZero_uint].
Qed.

Lemma safe_str_nat (n : nat) : safe (str_nat n).
Proof. apply safe_NilZero_uint. Qed.

Lemma safe_zeros (n : nat) : safe (zeros n).
Proof. unfold safe. induction n; cbn; auto. Qed.

Lemma safe_format_06d (z : Z) : safe (format_06d z).
Proof.
  unfold format_06d. destruct (z <? 0)%Z;
    repeat apply safe_app; try apply safe_zeros; try apply safe_NilZero_uint; reflexivity.
Qed.

Lemma safe_repr_float (q : Q) : safe (repr_float q).
Proof.
  unfold repr_float.
  repeat apply safe_app; try apply safe_str_int; try reflexivity.
  - destruct (_ <? 0)%Z; reflexivity.
  - destruct (_ =? 0)%Z; [|apply safe_app]; apply safe_str_int.
Qed.

Lemma safe_cell_str_number (c : cell) :
  match c with CStr s => safe s | _ => True end -> safe (cell_str c).
Proof.
  destruct c; cbn [cell_str]; intros Hs;
    [exact Hs | apply safe_str_int | apply safe_repr_float].
Qed.

(** Every text of the configuration is safe. *)
Lemma config_safe :
  Forall safe (keys GENDERS) /\
  Forall (fun kt : string * Tier =>
            safe kt.1 /\ Forall safe (cities kt.2) /\ Forall safe (states kt.2)) TIERS /\
  Forall (fun kc : string * Category =>
            safe kc.1 /\ Forall safe (items kc.2) /\ Forall safe (brands kc.2)) CATEGORIES /\
  Forall safe build_header.
Proof.
  unfold safe. repeat split; apply (bool_decide_unpack _); vm_compute; reflexivity.
Qed.

(** ** Generation of one user row *)

Lemma product_cells_flat_map (recs : list (string * string * string * Q * Q)) :
  product_cells (flat_map rec_cells recs) = map (fun r => CStr (rec_name r)) recs.
Proof.
  induction recs as [|[[[[pn cat] brand] price] score] recs IH]; [reflexivity|].
  cbn. now rewrite IH.
Qed.

Lemma length_flat_map_rec_cells (recs : list (string * string * string * Q * Q)) :
  length (flat_map rec_cells recs) = (length recs * 5)%nat.
Proof.
  induction recs as [|[[[[pn cat] brand] price] score] recs IH]; [reflexivity|].
  cbn. rewrite IH. lia.
Qed.

Lemma last_accumulate_from_pos (ws : list Q) (acc : Q) :
  0 < acc -> Forall (fun w => 0 < w) ws ->
  exists t, last (acc :: accumulate_from acc ws) = Some t /\ 0 < t.
Proof.
  revert acc. induction ws as [|w ws IH]; intros acc Hacc Hpos.
  - exists acc. split; [reflexivity | exact Hacc].
  - inversion Hpos as [|? ? Hw Hws]; subst.
    destruct (IH (acc + w) ltac:(lra) Hws) as (t & Ht & Htpos).
    exists t. split; [|exact Htpos]. cbn [accumulate_from]. exact Ht.
Qed.

(** Positive weights have a positive total. *)
Lemma last_accumulate_pos (ws : list Q) :
  ws <> [] -> Forall (fun w => 0 < w) ws ->
  exists t, last (accumulate ws) = Some t /\ 0 < t.
Proof.
  destruct ws as [|w ws]; [congruence|]. intros _ Hpos.
  inversion Hpos; subst. now apply last_accumulate_from_pos.
Qed.

Lemma category_lookup (cat : string) :
  cat ∈ keys CATEGORIES ->
  exists c, dict_get CATEGORIES cat = Ok c /\ items c <> [] /\ brands c <> [] /\
            safe cat /\ Forall safe (items c) /\ Forall safe (brands c).
Proof.
  intros Hin. cbn in Hin.
  elem_cases Hin; eexists; (split; [reflexivity|]);
    (split; [discriminate|]); (split; [discriminate|]);
    (split; [reflexivity|]);
    split; apply (bool_decide_unpack _); vm_compute; reflexivity.
Qed.

Section GenerationFacts.
Context {G : Type} `{PRNG G}.

Lemma bind_lift_ok {A B} (a : A) (k : A -> M G B) g :
  bind (lift (Ok a)) k g = k a g.
Proof. reflexivity. Qed.

(** The age band is one of the configuration and the age lies in its
    inclusive range. *)
Lemma choose_age_band_ok (g : G) :
  exists band d age g',
    choose_age_band g = Some (Ok (band, age), g') /\
    band ∈ keys AGE_BANDS /\
    dict_get AGE_BANDS band = Ok d /\
    (fst (band_range d) <= age <= snd (band_range d))%Z.
Proof.
  destruct (choices_ok (keys AGE_BANDS) (map band_p (values AGE_BANDS)) _ g
              eq_refl eq_refl eq_refl) as (band & Hch & Hlk).
  apply list_elem_of_lookup_2 in Hlk.
  assert (Hd : exists d, dict_get AGE_BANDS band = Ok d /\
                         (fst (band_range d) <= snd (band_range d))%Z).
  { pose proof Hlk as Hin. cbn in Hin.
    elem_cases Hin; eexists; (split; [reflexivity | cbn; lia]). }
  destruct Hd as (d & Hd & Hle).
  destruct (band_range d) as [low high] eqn:Er. cbn [fst snd] in Hle.
  destruct (randint_ok low high (snd (random g)) Hle) as [Hri Hk].
  eexists band, d, _, _. split; [|split; [exact Hlk | split; [exact Hd|]]].
  - unfold choose_age_band. rewrite (bind_ok _ _ _ _ _ Hch).
    rewrite Hd, bind_lift_ok, Er. rewrite (bind_ok _ _ _ _ _ Hri). reflexivity.
  - rewrite Er. cbn [fst snd]. lia.
Qed.

Lemma choose_gender_ok (g : G) :
  exists gender,
    choose_gender g = Some (Ok gender, snd (random g)) /\ gender ∈ keys GENDERS.
Proof.
  destruct (choices_ok (keys GENDERS) (values GENDERS) _ g eq_refl eq_refl eq_refl)
    as (gender & Hch & Hlk).
  exists gender. split; [exact Hch | exact (list_elem_of_lookup_2 _ _ _ Hlk)].
Qed.

(** The loop of [gen_user_row]: started from [recs] collected
    recommendations with distinct names, whatever it returns is a list of
    exactly [RECS_PER_USER] recommendations with distinct names; it raises
    nothing. *)
Lemma rec_loop_spec (fuel : nat) (cats : list string) (weights : list Q)
    (total : Q) (tier : string) :
  length weights = length cats ->
  last (accumulate weights) = Some total -> 0 < total ->
  (forall cat, cat ∈ cats -> cat ∈ keys CATEGORIES) ->
  tier ∈ keys TIERS ->
  forall recs seen_products g r g',
    seen_products = list_to_set (map rec_name recs) ->
    NoDup (map rec_name recs) ->
    (length recs <= RECS_PER_USER)%nat ->
    Forall rec_safe recs ->
    rec_loop fuel cats weights tier seen_products (flat_map rec_cells recs) g
      = Some (r, g') ->
    exists recs',
      r = Ok (flat_map rec_cells recs') /\
      NoDup (map rec_name recs') /\
      length recs' = RECS_PER_USER /\
      Forall rec_safe recs'.
Proof.
  intros Hlen Hlast Hpos Hcats Htier.
  induction fuel as [|fuel IH]; intros recs seen g r g' Hseen Hnd Hle Hsafe Hrun;
    cbn [rec_loop] in Hrun;
    (assert (Hsize : size seen = length recs)
      by (subst seen; rewrite size_list_to_set, length_map; [reflexivity | exact Hnd]));
    destruct (decide (size seen < RECS_PER_USER)%nat) as [Hlt|Hge].
  - discriminate.
  - injection Hrun as <- <-. exists recs. repeat split; auto. lia.
  - destruct (choices_ok cats weights total g Hlen Hlast Hpos) as (category & Hch & Hlk).
    apply list_elem_of_lookup_2, Hcats in Hlk.
    destruct (category_lookup category Hlk)
      as (c & Hc & Hitems & Hbrands & Hcs & His & Hbs).
    rewrite (bind_ok _ _ _ _ _ Hch), Hc, bind_lift_ok in Hrun.
    destruct (choice_ok (items c) (snd (random g)) Hitems) as (item & Hi & Hil).
    rewrite (bind_ok _ _ _ _ _ Hi), bind_lift_ok in Hrun.
    destruct (choice_ok (brands c) (snd (randbelow (length (items c)) (snd (random g))))
                Hbrands) as (brand & Hb & Hbl).
    rewrite (bind_ok _ _ _ _ _ Hb) in Hrun.
    apply list_elem_of_lookup_2 in Hil, Hbl.
    destruct (decide (brand +:+ " " +:+ item ∈ seen)) as [Hdup|Hnew].
    + eapply IH; eauto.
    + destruct (choose_price_spec tier
                  (snd (randbelow (length (brands c))
                     (snd (randbelow (length (items c)) (snd (random g)))))) Htier)
        as (t & bucket & low & high & g1 & _ & _ & _ & _ & Hp & _).
      cbv zeta in Hp.
      rewrite (bind_ok _ _ _ _ _ Hp) in Hrun.
      unfold bind at 1 in Hrun. unfold bind at 1 in Hrun.
      rewrite uniform_ok in Hrun. unfold ret at 1 in Hrun.
      match type of Hrun with
      | rec_loop _ _ _ _ _ (_ ++ [_; _; _; CFloat ?price; CFloat ?score]) _ = _ =>
          specialize (IH (recs ++ [(brand +:+ " " +:+ item, category, brand, price, score)])
                        (seen ∪ {[brand +:+ " " +:+ item]}))
      end.
      rewrite flat_map_app in IH. cbn [flat_map rec_cells app] in IH.
      eapply IH; [| | | | exact Hrun].
      * subst seen. rewrite map_app, list_to_set_app_L. cbn.
        now rewrite union_empty_r_L.
      * rewrite map_app. apply NoDup_app. split; [exact Hnd|]. split.
        -- intros x Hx Hx'. cbn in Hx'. apply list_elem_of_singleton in Hx' as ->.
           apply Hnew. subst seen. now apply elem_of_list_to_set.
        -- cbn. apply NoDup_singleton.
      * rewrite length_app. cbn. lia.
      * apply Forall_app. split; [exact Hsafe|]. constructor; [|constructor].
        rewrite Forall_forall in His, Hbs.
        unfold rec_safe. cbn. repeat split; auto.
        repeat apply safe_app; auto. reflexivity.
  - injection Hrun as <- <-. exists recs. repeat split; auto. lia.
Qed.

(** One iteration that draws a product already seen changes nothing but the
    state of the generator. *)
Lemma rec_loop_retry (fuel : nat) cats weights tier seen rec_flat
    (g g1 g2 g3 : G) category c item brand :
  (size seen < RECS_PER_USER)%nat ->
  choices cats weights g = Some (Ok category, g1) ->
  dict_get CATEGORIES category = Ok c ->
  choice (items c) g1 = Some (Ok item, g2) ->
  choice (brands c) g2 = Some (Ok brand, g3) ->
  brand +:+ " " +:+ item ∈ seen ->
  rec_loop (S fuel) cats weights tier seen rec_flat g
  = rec_loop fuel cats weights tier seen rec_flat g3.
Proof.
  intros Hlt Hch Hc Hi Hb Hin. cbn [rec_loop].
  destruct (decide (size seen < RECS_PER_USER)%nat); [|contradiction].
  rewrite (bind_ok _ _ _ _ _ Hch), Hc, bind_lift_ok.
  rewrite (bind_ok _ _ _ _ _ Hi), bind_lift_ok, (bind_ok _ _ _ _ _ Hb).
  destruct (decide (brand +:+ " " +:+ item ∈ seen)); [reflexivity | contradiction].
Qed.

(** One iteration that draws a new product records it and appends its five
    cells. *)
Lemma rec_loop_accept (fuel : nat) cats weights tier seen rec_flat
    (g g1 g2 g3 g4 : G) category c item brand price :
  (size seen < RECS_PER_USER)%nat ->
  choices cats weights g = Some (Ok category, g1) ->
  dict_get CATEGORIES category = Ok c ->
  choice (items c) g1 = Some (Ok item, g2) ->
  choice (brands c) g2 = Some (Ok brand, g3) ->
  brand +:+ " " +:+ item ∉ seen ->
  choose_price tier g3 = Some (Ok price, g4) ->
  rec_loop (S fuel) cats weights tier seen rec_flat g
  = rec_loop fuel cats weights tier (seen ∪ {[ brand +:+ " " +:+ item ]})
      (rec_flat ++ [CStr (brand +:+ " " +:+ item); CStr category; CStr brand;
                    CFloat price;
                    CFloat (round2 (0.1 + (1.0 - 0.1) * fst (random g4)))])
      (snd (random g4)).
Proof.
  intros Hlt Hch Hc Hi Hb Hnew Hp. cbn [rec_loop].
  destruct (decide (size seen < RECS_PER_USER)%nat); [|contradiction].
  rewrite (bind_ok _ _ _ _ _ Hch), Hc, bind_lift_ok.
  rewrite (bind_ok _ _ _ _ _ Hi), bind_lift_ok, (bind_ok _ _ _ _ _ Hb).
  destruct (decide (brand +:+ " " +:+ item ∈ seen)); [contradiction|].
  rewrite (bind_ok _ _ _ _ _ Hp).
  unfold bind at 1. unfold bind at 1. rewrite uniform_ok. reflexivity.
Qed.

End GenerationFacts.

(** The loop has no bound on its retries: a generator that keeps returning
    the same draw makes it pick the same product for ever, and no amount of
    fuel lets [gen_user_row] return. *)
Lemma stuck_choices :
  @choices unit stuck_prng _ stuck_cats stuck_weights tt = Some (Ok "Electronics", tt).
Proof. vm_compute. reflexivity. Qed.

Lemma stuck_item c : dict_get CATEGORIES "Electronics" = Ok c ->
  @choice unit stuck_prng _ (items c) tt = Some (Ok "Smartphone", tt) /\
  @choice unit stuck_prng _ (brands c) tt = Some (Ok "Samsung", tt).
Proof. intros [= <-]. split; vm_compute; reflexivity. Qed.

Lemma rec_loop_stuck (fuel : nat) (seen : gset string) rec_flat :
  "Samsung Smartphone" ∈ seen ->
  (size seen < RECS_PER_USER)%nat ->
  @rec_loop unit stuck_prng fuel stuck_cats stuck_weights "Tier1" seen rec_flat tt = None.
Proof.
  intros Hin Hlt.
  induction fuel as [|fuel IH].
  - cbn [rec_loop]. destruct (decide (size seen < RECS_PER_USER)%nat);
      [reflexivity | contradiction].
  - destruct (stuck_item _ eq_refl) as [Hi Hb].
    rewrite (@rec_loop_retry unit stuck_prng fuel stuck_cats stuck_weights "Tier1" seen
               rec_flat tt tt tt tt "Electronics" _ "Smartphone" "Samsung"
               Hlt stuck_choices eq_refl Hi Hb Hin).
    exact IH.
Qed.

Lemma stuck_combined :
  combined_category_weights "18-25" "Male" = Ok (stuck_cats, stuck_weights).
Proof. vm_compute. reflexivity. Qed.

Lemma stuck_price :
  { price | @choose_price unit stuck_prng "Tier1" tt = Some (Ok price, tt) }.
Proof. eexists. vm_compute. reflexivity. Qed.

Lemma gen_user_row_stuck (fuel : nat) (idx : Z) :
  @gen_user_row unit stuck_prng fuel idx tt = None.
Proof.
  unfold gen_user_row.
  assert (Ha : @choose_age_band unit stuck_prng tt = Some (Ok ("18-25", 18%Z), tt))
    by (vm_compute; reflexivity).
  assert (Hg : @choose_gender unit stuck_prng tt = Some (Ok "Male", tt))
    by (vm_compute; reflexivity).
  assert (Ht : @choose_tier_city_state unit stuck_prng tt
               = Some (Ok ("Tier1", "Mumbai", "Maharashtra"), tt))
    by (vm_compute; reflexivity).
  rewrite (bind_ok _ _ _ _ _ Ha), (bind_ok _ _ _ _ _ Hg), (bind_ok _ _ _ _ _ Ht).
  rewrite stuck_combined, bind_lift_ok.
  assert (Hloop : @rec_loop unit stuck_prng fuel stuck_cats stuck_weights "Tier1" ∅ [] tt
                  = None).
  { destruct fuel as [|fuel]; [reflexivity|].
    destruct (stuck_item _ eq_refl) as [Hi Hb].
    destruct stuck_price as [price Hp].
    rewrite (@rec_loop_accept unit stuck_prng fuel stuck_cats stuck_weights "Tier1" ∅
               [] tt tt tt tt tt "Electronics" _ "Smartphone" "Samsung" price
               ltac:(rewrite size_empty; unfold RECS_PER_USER; lia) stuck_choices eq_refl Hi Hb
               ltac:(set_solver) Hp).
    apply rec_loop_stuck; [set_solver|].
    rewrite size_union, size_empty, size_singleton by set_solver.
    unfold RECS_PER_USER. lia. }
  unfold bind. now rewrite Hloop.
Qed.


(** Whatever [gen_user_row] returns is such a row; it raises nothing. *)
Lemma gen_user_row_spec {G : Type} `{PRNG G} (fuel : nat) (idx : Z) (g : G) r g' :
  gen_user_row fuel idx g = Some (r, g') ->
  exists row, r = Ok row /\ user_row idx row.
Proof.
  intros Hrun. unfold gen_user_row in Hrun.
  destruct (choose_age_band_ok g) as (band & d & age & g1 & Hab & Hband & _ & _).
  rewrite (bind_ok _ _ _ _ _ Hab) in Hrun.
  destruct (choose_gender_ok g1) as (gender & Hgd & Hgender).
  rewrite (bind_ok _ _ _ _ _ Hgd) in Hrun.
  destruct (choose_tier_city_state_spec (snd (random g1)))
    as (tier & t & city & state & Htcs & Htier & Ht & Hidx & Hcity & Hstate).
  rewrite (bind_ok _ _ _ _ _ Htcs) in Hrun.
  destruct (combined_category_weights_spec band gender Hband Hgender)
    as (ap & gp & cats & wts & _ & _ & Hccw & _ & _ & Hlen & _ & Hcats & Hpos & _).
  rewrite Hccw, bind_lift_ok in Hrun.
  assert (Hne : wts <> []).
  { intros ->. assert (Hin : "Electronics" ∈ cats).
    { apply Hcats. cbn. apply elem_of_cons. now left. }
    destruct cats; [now apply elem_of_nil in Hin | discriminate]. }
  destruct (last_accumulate_pos wts Hne Hpos) as (total & Hlast & Htot).
  apply bind_inv in Hrun as [(rec_flat & g2 & Hloop & Hret) | (e & Hloop & ->)].
  - destruct (rec_loop_spec fuel cats wts total tier Hlen Hlast Htot
                (fun cat => proj1 (Hcats cat)) Htier [] ∅ _ _ _
                eq_refl (NoDup_nil_2) ltac:(cbn; lia) (Forall_nil_2 _) Hloop)
      as (recs & [= ->] & Hnd & Hn & Hsafe).
    injection Hret as <- <-.
    destruct (tier_safe tier t Htier Ht) as (Hts & Hcs & Hss).
    rewrite Forall_forall in Hcs, Hss.
    eexists. split; [reflexivity|].
    exists age, gender, state, city, tier, recs.
    repeat split; auto.
    + pose proof config_safe as (Hg & _). rewrite Forall_forall in Hg. now apply Hg.
    + apply Hss. eapply list_elem_of_lookup_2; eauto.
    + apply Hcs. eapply list_elem_of_lookup_2; eauto.
  - destruct (rec_loop_spec fuel cats wts total tier Hlen Hlast Htot
                (fun cat => proj1 (Hcats cat)) Htier [] ∅ _ _ _
                eq_refl (NoDup_nil_2) ltac:(cbn; lia) (Forall_nil_2 _) Hloop)
      as (recs & [=] & _).
Qed.

(** C1: whenever [gen_user_row] returns a row, the recommendation part of
    the row (everything after the six identity cells) holds exactly
    [RECS_PER_USER] = 10 recommendations of five cells each, and their
    product names are pairwise distinct. *)
Theorem gen_user_row_unique_products {G : Type} `{PRNG G}
    (fuel : nat) (idx : Z) (g : G) (row : list cell) (g' : G) :
  gen_user_row fuel idx g = Some (Ok row, g') ->
  length (drop 6 row) = (RECS_PER_USER * 5)%nat /\
  length (row_products row) = RECS_PER_USER /\
  RECS_PER_USER = 10%nat /\
  NoDup (row_products row).
Proof.
  intros Hrun.
  destruct (gen_user_row_spec fuel idx g _ _ Hrun)
    as (row' & [= <-] & age & gender & state & city & tier & recs
        & -> & _ & Hnd & Hn & _).
  unfold row_products.
  replace (drop 6 _) with (flat_map rec_cells recs) by reflexivity.
  rewrite product_cells_flat_map, length_flat_map_rec_cells, map_map, length_map.
  cbn [cell_str]. fold rec_name. rewrite Hn.
  repeat split; auto.
Qed.

Lemma gen_user_row_unique_products_witness :
  exists row g',
    gen_user_row 20 1 (seed 42 : nat) = Some (Ok row, g') /\
    length (row_products row) = 10%nat /\ NoDup (row_products row).
Proof.
  eexists _, _. split; [vm_compute; reflexivity|].
  match goal with
  | |- length (row_products ?row) = _ /\ _ =>
      destruct (gen_user_row_unique_products 20 1 (seed 42 : nat) row 110%nat)
        as (_ & Hl & _ & Hnd); [vm_compute; reflexivity | split; [exact Hl | exact Hnd]]
  end.
Defined.

(** ** The csv writer and reader on rows of safe texts *)

Lemma append_cons (c : ascii) (s1 s2 : string) :
  String c s1 +:+ s2 = String c (s1 +:+ s2).
Proof. reflexivity. Qed.

Lemma append_assoc (s1 s2 s3 : string) : (s1 +:+ s2) +:+ s3 = s1 +:+ (s2 +:+ s3).
Proof.
  induction s1 as [|c s1 IH]; [reflexivity|].
  now rewrite !append_cons, IH.
Qed.

Lemma append_nil_r (s : string) : s +:+ EmptyString = s.
Proof.
  induction s as [|c s IH]; [reflexivity|].
  now rewrite append_cons, IH.
Qed.

Lemma special_newline (c : ascii) : special c = false -> is_newline c = false.
Proof.
  unfold special, is_newline. intros Hs.
  apply orb_false_iff in Hs as [Hs Hlf]. apply orb_false_iff in Hs as [Hs Hcr].
  now rewrite Hlf, Hcr.
Qed.

Lemma safe_no_newline (s : string) : safe s -> has_newline s = false.
Proof.
  unfold safe. induction s as [|c s IH]; simpl; [reflexivity|].
  intros Hs. apply orb_false_iff in Hs as [Hc Hs].
  now rewrite (special_newline c Hc), IH.
Qed.

Lemma has_newline_app (s1 s2 : string) :
  has_newline (s1 +:+ s2) = has_newline s1 || has_newline s2.
Proof.
  induction s1 as [|c s1 IH]; simpl; [reflexivity|].
  rewrite IH. now rewrite orb_assoc.
Qed.

Lemma concat_cons (sep x y : string) (l : list string) :
  String.concat sep (x :: y :: l) = x +:+ sep +:+ String.concat sep (y :: l).
Proof. reflexivity. Qed.

Lemma concat_no_newline (texts : list string) :
  Forall safe texts -> has_newline (String.concat "," texts) = false.
Proof.
  induction 1 as [|t texts Ht Hts IH]; [reflexivity|].
  destruct texts as [|t' texts].
  - now apply safe_no_newline.
  - rewrite concat_cons, !has_newline_app, IH, (safe_no_newline t Ht). reflexivity.
Qed.

Lemma file_text_app (rs1 rs2 : list (list string)) :
  file_text (rs1 ++ rs2) = file_text rs1 +:+ file_text rs2.
Proof.
  induction rs1 as [|r rs1 IH]; cbn [file_text app]; [reflexivity|].
  now rewrite IH, append_assoc.
Qed.

Lemma csv_field_safe (s : string) : safe s -> csv_field s = s.
Proof. unfold safe, csv_field. now intros ->. Qed.

Lemma map_csv_field_safe (texts : list string) :
  Forall safe texts -> map csv_field texts = texts.
Proof.
  induction 1 as [|t texts Ht Hts IH]; cbn [map]; [reflexivity|].
  now rewrite IH, csv_field_safe.
Qed.

(** Rows of two or more safe texts are written without any quoting. *)
Lemma csv_line_plain (row : list cell) :
  (2 <= length row)%nat -> Forall safe (map cell_str row) ->
  csv_line row = plain_line (map cell_str row).
Proof.
  intros Hlen Hsafe. unfold csv_line, plain_line.
  rewrite <- (length_map cell_str) in Hlen.
  revert Hlen Hsafe. generalize (map cell_str row) as texts.
  intros [|t1 [|t2 texts]] Hlen Hsafe; cbn [length] in Hlen; try lia.
  destruct t1; now rewrite (map_csv_field_safe _ Hsafe).
Qed.

Lemma universal_newlines_line (s rest : string) :
  has_newline s = false ->
  universal_newlines (s +:+ CRLF +:+ rest)
  = s +:+ String LF (universal_newlines rest).
Proof.
  induction s as [|c s IH]; intros Hs.
  - reflexivity.
  - cbn [has_newline] in Hs. apply orb_false_iff in Hs as [Hc Hs].
    unfold is_newline in Hc. apply orb_false_iff in Hc as [_ Hcr].
    rewrite !append_cons. cbn [universal_newlines]. rewrite Hcr. now rewrite IH.
Qed.

Lemma split_lines_line (cur s rest : string) :
  has_newline s = false ->
  split_lines cur (s +:+ String LF rest)
  = (cur +:+ s +:+ String LF EmptyString) :: split_lines EmptyString rest.
Proof.
  revert cur. induction s as [|c s IH]; intros cur Hs.
  - reflexivity.
  - cbn [has_newline] in Hs. apply orb_false_iff in Hs as [Hc Hs].
    unfold is_newline in Hc. apply orb_false_iff in Hc as [Hlf _].
    rewrite !append_cons. cbn [split_lines]. rewrite Hlf, (IH _ Hs).
    now rewrite append_assoc.
Qed.

(** The lines a reader sees in a file of plain records. *)
Lemma file_lines_text (records : list (list string)) :
  Forall (Forall safe) records ->
  file_lines (file_text records) = map read_line records.
Proof.
  unfold file_lines. induction 1 as [|r rs Hr Hrs IH]; [reflexivity|].
  cbn [file_text map]. unfold plain_line. rewrite append_assoc.
  rewrite universal_newlines_line by now apply concat_no_newline.
  rewrite split_lines_line by now apply concat_no_newline.
  rewrite IH. reflexivity.
Qed.

Lemma parse_line_app (p : parser) (s1 s2 : string) :
  parse_line p (s1 +:+ s2)
  = match feed p s1 with Some p' => parse_line p' s2 | None => None end.
Proof.
  revert p. induction s1 as [|c s1 IH]; intros p; [reflexivity|].
  rewrite append_cons. cbn [parse_line feed].
  destruct (parse_process_char p (Some c)); [apply IH | reflexivity].
Qed.

Lemma process_plain_char (p : parser) (c : ascii) :
  special c = false -> unquoted p ->
  parse_process_char p (Some c) = Some (parse_add_char p c IN_FIELD).
Proof.
  intros Hc Hp. pose proof (special_newline c Hc) as Hnl.
  unfold special in Hc.
  apply orb_false_iff in Hc as [Hc _]. apply orb_false_iff in Hc as [Hc _].
  apply orb_false_iff in Hc as [Hcomma Hquote].
  unfold parse_process_char, parse_start_field.
  destruct Hp as [-> | [-> | ->]]; now rewrite Hnl, ?Hquote, ?Hcomma.
Qed.

Lemma feed_safe (s : string) (p : parser) :
  safe s -> unquoted p ->
  feed p s = Some (match s with
                   | EmptyString => p
                   | _ => {| state := IN_FIELD; field := field p +:+ s;
                             fields := fields p |}
                   end).
Proof.
  unfold safe. revert p. induction s as [|c s IH]; intros p Hs Hp; [reflexivity|].
  cbn [has_special] in Hs. apply orb_false_iff in Hs as [Hc Hs].
  cbn [feed]. rewrite (process_plain_char p c Hc Hp).
  rewrite (IH _ Hs) by (right; right; reflexivity).
  destruct s as [|c' s]; cbn [parse_add_char field fields state]; [reflexivity|].
  now rewrite append_assoc.
Qed.

(** A safe text followed by a comma ends a field. *)
Lemma feed_field_comma (t : string) (p : parser) :
  safe t -> unquoted p ->
  feed p (t +:+ ",")
  = Some {| state := START_FIELD; field := EmptyString;
            fields := fields p ++ [field p +:+ t] |}.
Proof.
  intros Ht Hp.
  assert (Happ : forall s1 s2 q,
             feed q (s1 +:+ s2)
             = match feed q s1 with Some q' => feed q' s2 | None => None end).
  { induction s1 as [|c s1 IH]; intros s2 q; [reflexivity|].
    rewrite append_cons. cbn [feed].
    destruct (parse_process_char q (Some c)); [apply IH | reflexivity]. }
  rewrite Happ, (feed_safe t p Ht Hp).
  destruct t as [|c t].
  - rewrite append_nil_r. destruct Hp as [Hp | [Hp | Hp]];
      cbn [feed]; unfold parse_process_char; rewrite Hp; reflexivity.
  - reflexivity.
Qed.

(** A safe text followed by the end of the line ends the record. *)
Lemma parse_line_last_field (t : string) (p : parser) :
  safe t -> state p = START_FIELD ->
  parse_line p (t +:+ String LF EmptyString)
  = Some {| state := START_RECORD; field := EmptyString;
            fields := fields p ++ [field p +:+ t] |}.
Proof.
  intros Ht Hp.
  rewrite parse_line_app, (feed_safe t p Ht) by (right; left; exact Hp).
  destruct t as [|c t].
  - rewrite append_nil_r. cbn [parse_line]. unfold parse_process_char at 1.
    rewrite Hp. reflexivity.
  - reflexivity.
Qed.

Lemma parse_line_fields (texts : list string) (p : parser) :
  state p = START_FIELD -> field p = EmptyString ->
  Forall safe texts -> texts <> [] ->
  parse_line p (read_line texts)
  = Some {| state := START_RECORD; field := EmptyString;
            fields := fields p ++ texts |}.
Proof.
  intros Hst Hf Hsafe. revert p Hst Hf.
  induction Hsafe as [|t texts Ht Hts IH]; intros p Hst Hf Hne; [congruence|].
  destruct texts as [|t' texts].
  - unfold read_line. cbn [String.concat].
    rewrite (parse_line_last_field t p Ht Hst), Hf. reflexivity.
  - unfold read_line. rewrite concat_cons, !append_assoc.
    rewrite <- (append_assoc t ","), parse_line_app.
    rewrite (feed_field_comma t p Ht) by (right; left; exact Hst).
    rewrite Hf. fold (read_line (t' :: texts)).
    rewrite IH by (reflexivity || discriminate).
    cbn [fields]. now rewrite <- app_assoc.
Qed.

(** The parser gives back the texts of a written record. *)
Lemma parse_line_record (texts : list string) :
  Forall safe texts -> (2 <= length texts)%nat ->
  parse_line parse_reset (read_line texts)
  = Some {| state := START_RECORD; field := EmptyString; fields := texts |}.
Proof.
  intros Hsafe Hlen.
  destruct texts as [|t [|t' texts]]; cbn [length] in Hlen; try lia.
  inversion Hsafe as [|? ? Ht Hts]; subst.
  unfold read_line. rewrite concat_cons, !append_assoc.
  rewrite <- (append_assoc t ","), parse_line_app.
  rewrite (feed_field_comma t parse_reset Ht) by (left; reflexivity).
  fold (read_line (t' :: texts)).
  rewrite parse_line_fields by (reflexivity || assumption || discriminate).
  reflexivity.
Qed.

Lemma reader_next_record (texts : list string) (lines : list string) :
  Forall safe texts -> (2 <= length texts)%nat ->
  reader_next (read_line texts :: lines) = Ok (texts, lines).
Proof.
  intros Hsafe Hlen. unfold reader_next. cbn [reader_loop].
  now rewrite (parse_line_record texts Hsafe Hlen).
Qed.

(** ** Fuel *)

Section FuelFacts.
Context {G : Type} `{PRNG G}.

Lemma bind_ext_Some {A B} (m : M G A) (k k' : A -> M G B) g x :
  (forall a g1, k a g1 = Some x -> k' a g1 = Some x) ->
  bind m k g = Some x -> bind m k' g = Some x.
Proof.
  intros Hk. unfold bind. destruct (m g) as [[[a|e] g1]|]; auto.
Qed.

(** A run that ends within [fuel] iterations ends the same way with more. *)
Lemma rec_loop_fuel_mono (fuel fuel' : nat) cats weights tier seen rec_flat (g : G) x :
  (fuel <= fuel')%nat ->
  rec_loop fuel cats weights tier seen rec_flat g = Some x ->
  rec_loop fuel' cats weights tier seen rec_flat g = Some x.
Proof.
  revert fuel' seen rec_flat g.
  induction fuel as [|fuel IH]; intros fuel' seen rec_flat g Hle;
    destruct fuel' as [|fuel']; cbn [rec_loop]; try lia;
    destruct (decide (size seen < RECS_PER_USER)%nat); try discriminate; auto.
  apply bind_ext_Some; intros category g1.
  apply bind_ext_Some; intros c g2.
  apply bind_ext_Some; intros item g3.
  apply bind_ext_Some; intros c' g4.
  apply bind_ext_Some; intros brand g5.
  destruct (decide (brand +:+ " " +:+ item ∈ seen)).
  - apply IH. lia.
  - apply bind_ext_Some; intros price g6.
    apply bind_ext_Some; intros score g7.
    apply IH. lia.
Qed.

Lemma gen_user_row_fuel_mono (fuel fuel' : nat) (idx : Z) (g : G) x :
  (fuel <= fuel')%nat ->
  gen_user_row fuel idx g = Some x -> gen_user_row fuel' idx g = Some x.
Proof.
  intros Hle. unfold gen_user_row.
  apply bind_ext_Some; intros [age_band age] g1.
  apply bind_ext_Some; intros gender g2.
  apply bind_ext_Some; intros [[tier city] state] g3.
  apply bind_ext_Some; intros [cats weights] g4.
  intros Hrun. unfold bind in *.
  destruct (rec_loop fuel cats weights tier ∅ [] g4) as [y|] eqn:E; [|discriminate].
  now rewrite (rec_loop_fuel_mono fuel fuel' _ _ _ _ _ _ y Hle E).
Qed.

Lemma write_rows_fuel_mono (fuel fuel' : nat) idxs fh printed (g : G) x :
  (fuel <= fuel')%nat ->
  write_rows fuel idxs fh printed g = Some x ->
  write_rows fuel' idxs fh printed g = Some x.
Proof.
  intros Hle. revert fh printed g.
  induction idxs as [|idx idxs IH]; intros fh printed g; cbn [write_rows]; [auto|].
  destruct (gen_user_row fuel idx g) as [y|] eqn:E; [|discriminate].
  rewrite (gen_user_row_fuel_mono fuel fuel' idx g y Hle E).
  destruct y as [[row|e] g1]; [apply IH | auto].
Qed.

(** What was printed before does not change what is written. *)
Lemma write_rows_printed (fuel : nat) idxs fh printed printed2 (g : G) r fh' p' g' :
  write_rows fuel idxs fh printed g = Some (r, fh', p', g') ->
  exists p2', write_rows fuel idxs fh printed2 g = Some (r, fh', p2', g').
Proof.
  revert fh printed printed2 g.
  induction idxs as [|idx idxs IH]; intros fh printed printed2 g; cbn [write_rows].
  - intros [= <- <- <- <-]. eauto.
  - destruct (gen_user_row fuel idx g) as [[[row|e] g1]|]; [| |discriminate].
    + apply IH.
    + intros [= <- <- <- <-]. eauto.
Qed.

End FuelFacts.

(** ** The file [main] writes *)

Lemma rec_cells_safe (recs : list (string * string * string * Q * Q)) :
  Forall rec_safe recs -> Forall safe (map cell_str (flat_map rec_cells recs)).
Proof.
  induction 1 as [|[[[[pn cat] brand] price] score] recs (Hpn & Hcat & Hbrand) _ IH];
    [constructor|].
  cbn in Hpn, Hcat, Hbrand. cbn [flat_map rec_cells app map cell_str].
  repeat (constructor; [assumption || apply safe_repr_float|]). exact IH.
Qed.

Lemma user_row_texts (idx : Z) (row : list cell) :
  user_row idx row ->
  length row = (6 + RECS_PER_USER * 5)%nat /\ Forall safe (map cell_str row).
Proof.
  intros (age & gender & state & city & tier & recs & -> & (Hg & Hs & Hc & Ht)
          & _ & Hn & Hsafe).
  split.
  - rewrite length_app, length_flat_map_rec_cells, Hn. reflexivity.
  - rewrite map_app. apply Forall_app. split; [|now apply rec_cells_safe].
    cbn [map cell_str].
    repeat (constructor; [assumption || apply safe_str_int || idtac|]);
      [|constructor].
    apply safe_app; [reflexivity | apply safe_format_06d].
Qed.

Lemma length_build_header : length build_header = (6 + RECS_PER_USER * 5)%nat.
Proof. reflexivity. Qed.

Lemma header_line : csv_line (map CStr build_header) = plain_line build_header.
Proof. vm_compute. reflexivity. Qed.

Section MainFacts.
Context {G : Type} `{PRNG G}.

Lemma time_time_keeps (w : World G) :
  rng (snd (time_time w)) = rng w /\
  fs (snd (time_time w)) = fs w /\
  stdout (snd (time_time w)) = stdout w.
Proof. unfold time_time. destruct (clock w); auto. Qed.

(** The loop writes one plain line per index and raises nothing. *)
Lemma write_rows_spec (fuel : nat) idxs fh printed (g : G) r fh' printed' g' :
  write_rows fuel idxs fh printed g = Some (r, fh', printed', g') ->
  r = Ok tt /\
  exists rows,
    Forall2 user_row idxs rows /\
    fh' = fh +:+ file_text (map (map cell_str) rows).
Proof.
  revert fh printed g.
  induction idxs as [|idx idxs IH]; intros fh printed g; cbn [write_rows].
  - intros [= <- <- <- <-]. split; [reflexivity|].
    exists []. split; [constructor | now rewrite append_nil_r].
  - destruct (gen_user_row fuel idx g) as [[r1 g1]|] eqn:E; [|discriminate].
    destruct (gen_user_row_spec fuel idx g r1 g1 E) as (row & -> & Hrow).
    intros Hrun. destruct (IH _ _ _ Hrun) as (-> & rows & Hrows & ->).
    split; [reflexivity|].
    exists (row :: rows). split; [now constructor|].
    destruct (user_row_texts idx row Hrow) as [Hlen Hsafe].
    rewrite csv_line_plain by (rewrite ?Hlen; cbn; (lia || assumption)).
    cbn [map file_text]. now rewrite append_assoc.
Qed.

(** [main] seeds the generator, writes the header and the rows produced
    from that seed to [args.out], and ends with the sanity check of the file
    it wrote. *)
Lemma main_inv (fuel : nat) (args : Args) (w : World G) r w' :
  main fuel args w = Some (r, w') ->
  exists p rg fh p' g',
    write_rows fuel (range 1 (rows args + 1)) (csv_line (map CStr build_header))
      p (seed 42) = Some (rg, fh, p', g') /\
    fs w' !! out args = Some fh /\
    rng w' = g' /\
    r = match rg with Raise e => Raise e | Ok _ => sanity_check fh end.
Proof.
  unfold main. destruct (time_time w) as [start w1].
  destruct (write_rows fuel (range 1 (rows args + 1))
              (csv_line (map CStr build_header)) (stdout w1) (seed 42))
    as [[[[rg fh] p'] g']|] eqn:E; [|discriminate].
  intros Hrun. exists (stdout w1), rg, fh, p', g'. split; [exact E|].
  destruct rg as [[]|e].
  - match type of Hrun with
    | (let (_, _) := time_time ?w2 in _) = _ =>
        pose proof (time_time_keeps w2) as (Hrng & Hfs & _);
        destruct (time_time w2) as [now w3]
    end.
    cbn [snd rng fs] in Hrng, Hfs. cbn [fs rng] in Hrun. rewrite Hfs in Hrun.
    rewrite lookup_insert_eq in Hrun. injection Hrun as <- <-.
    cbn [fs rng]. rewrite ?Hfs, ?Hrng, lookup_insert_eq. auto.
  - injection Hrun as <- <-. cbn [fs rng]. rewrite lookup_insert_eq. auto.
Qed.

Lemma main_spec (fuel : nat) (args : Args) (w : World G) r w' :
  main fuel args w = Some (r, w') ->
  exists data,
    Forall2 user_row (range 1 (rows args + 1)) data /\
    fs w' !! out args = Some (file_text (build_header :: map (map cell_str) data)) /\
    r = sanity_check (file_text (build_header :: map (map cell_str) data)).
Proof.
  intros Hrun.
  destruct (main_inv fuel args w r w' Hrun) as (p & rg & fh & p' & g' & Hw & Hfs & _ & ->).
  destruct (write_rows_spec _ _ _ _ _ _ _ _ _ Hw) as (-> & data & Hdata & ->).
  exists data. rewrite header_line in Hfs |- *. cbn [file_text]. auto.
Qed.

End MainFacts.

(** ** The sanity check *)

(** What the check does with any file whose first two records can be read. *)
Lemma sanity_check_reads (content : string) (header first_row : list string)
    (rest rest' : list string) :
  reader_next (file_lines content) = Ok (header, rest) ->
  reader_next rest = Ok (first_row, rest') ->
  sanity_check content
  = if decide (length first_row = (6 + RECS_PER_USER * 5)%nat) then Ok tt
    else Raise (SystemExit ("ERROR: expected 56 columns, got "
                            +:+ str_nat (length first_row))).
Proof.
  intros Hh Hr. unfold sanity_check. rewrite Hh, Hr, length_build_header.
  destruct (decide (length first_row = (6 + RECS_PER_USER * 5)%nat)) as [->|Hne].
  - reflexivity.
  - apply Nat.eqb_neq in Hne. rewrite Hne. reflexivity.
Qed.

(** The check on a file of plain records. *)
Lemma sanity_check_records (header first_row : list string)
    (records : list (list string)) :
  Forall (fun r => Forall safe r /\ (2 <= length r)%nat)
         (header :: first_row :: records) ->
  exists rest rest',
    reader_next (file_lines (file_text (header :: first_row :: records)))
    = Ok (header, rest) /\
    reader_next rest = Ok (first_row, rest').
Proof.
  intros Hall.
  assert (Hsafe : Forall (Forall safe) (header :: first_row :: records)).
  { eapply Forall_impl; [exact Hall | now intros r [Hr _]]. }
  rewrite (file_lines_text _ Hsafe). cbn [map].
  inversion Hall as [|? ? [Hh Hhl] Hall']; subst.
  inversion Hall' as [|? ? [Hf Hfl] _]; subst.
  eexists _, _. split; now apply reader_next_record.
Qed.

Lemma sanity_check_header_only :
  sanity_check (plain_line build_header) = Raise StopIteration.
Proof. vm_compute. reflexivity. Qed.

Section RunFacts.
Context {G : Type} `{PRNG G}.

Lemma range_empty (a b : Z) : (b <= a)%Z -> range a b = [].
Proof. intros Hle. unfold range. now replace (Z.to_nat (b - a)) with 0%nat by lia. Qed.

(** With no row to generate [main] writes the header and nothing else, for
    any fuel, and the sanity check then finds no first data row. *)
Lemma main_no_rows (fuel : nat) (n : Z) (o : string) (w : World G) :
  (n <= 0)%Z ->
  exists w',
    main fuel {| rows := n; out := o |} w = Some (Raise StopIteration, w') /\
    fs w' !! o = Some (plain_line build_header).
Proof.
  intros Hn. unfold main. cbn [rows out].
  rewrite range_empty by lia. cbn [write_rows].
  destruct (time_time w) as [start w1].
  match goal with
  | |- context [time_time ?w2] =>
      pose proof (time_time_keeps w2) as (_ & Hfs & _);
      destruct (time_time w2) as [now w3]
  end.
  cbn [snd fs] in Hfs. cbn [fs].
  assert (Hl : fs w3 !! o = Some (plain_line build_header)).
  { rewrite Hfs, lookup_insert_eq, header_line. reflexivity. }
  rewrite Hl, sanity_check_header_only.
  eexists. split; [reflexivity|]. exact Hl.
Qed.

End RunFacts.

(** C9: with [rows = 0] the loop over [range(1, rows + 1)] has nothing to
    run over, and the file [main] leaves at [args.out] is the header line and
    nothing else, whatever the fuel and the surroundings. *)
Theorem main_zero_rows_header_only {G : Type} `{PRNG G}
    (fuel : nat) (o : string) (w : World G) :
  range 1 (0 + 1) = [] /\
  exists r w' content,
    main fuel {| rows := 0; out := o |} w = Some (r, w') /\
    fs w' !! o = Some content /\
    content = String.concat "," build_header +:+ CRLF /\
    file_lines content = [String.concat "," build_header +:+ String LF EmptyString].
Proof.
  split; [reflexivity|].
  destruct (main_no_rows fuel 0 o w ltac:(lia)) as (w' & Hrun & Hfs).
  exists (Raise StopIteration), w', (plain_line build_header).
  refine (conj Hrun (conj Hfs (conj eq_refl _))).
  vm_compute. reflexivity.
Qed.

(** C10: with [rows = 0] the second [next(reader)] of the sanity check
    raises [StopIteration], which nothing catches: the process ends with a
    non-zero status although the file, the header line alone, reads back as
    the header record. *)
Theorem main_zero_rows_stop_iteration {G : Type} `{PRNG G}
    (fuel : nat) (o : string) (w : World G) :
  exists w' content,
    main fuel {| rows := 0; out := o |} w = Some (Raise StopIteration, w') /\
    exit_code (Raise StopIteration) <> 0%Z /\
    fs w' !! o = Some content /\
    reader_next (file_lines content) = Ok (build_header, []) /\
    reader_next [] = Raise StopIteration.
Proof.
  destruct (main_no_rows fuel 0 o w ltac:(lia)) as (w' & Hrun & Hfs).
  exists w', (plain_line build_header).
  refine (conj Hrun (conj _ (conj Hfs (conj _ eq_refl)))).
  - discriminate.
  - vm_compute. reflexivity.
Qed.

(** ** Whole runs *)

Section WholeRuns.
Context {G : Type} `{PRNG G}.

Lemma length_range (a b : Z) : length (range a b) = Z.to_nat (b - a).
Proof. unfold range. now rewrite length_map, length_seq. Qed.

(** The records of the file [main] leaves: the header and one record of
    56 safe texts per index. *)
Lemma main_records (fuel : nat) (args : Args) (w : World G) r w' :
  main fuel args w = Some (r, w') ->
  exists records,
    fs w' !! out args = Some (file_text (build_header :: records)) /\
    r = sanity_check (file_text (build_header :: records)) /\
    length records = Z.to_nat (rows args) /\
    Forall (fun texts => Forall safe texts /\ length texts = (6 + RECS_PER_USER * 5)%nat)
           (build_header :: records).
Proof.
  intros Hrun. destruct (main_spec fuel args w r w' Hrun) as (data & Hdata & Hfs & Hr).
  exists (map (map cell_str) data). refine (conj Hfs (conj Hr (conj _ _))).
  - rewrite length_map, <- (Forall2_length _ _ _ Hdata), length_range. f_equal. lia.
  - constructor.
    + split; [apply config_safe | apply length_build_header].
    + apply Forall_map. clear Hfs Hr.
      induction Hdata as [|idx row idxs data Hrow _ IH]; constructor; [|exact IH].
      destruct (user_row_texts idx row Hrow) as [Hlen Hsafe].
      split; [exact Hsafe | now rewrite length_map].
Qed.

Lemma records_two (records : list (list string)) :
  Forall (fun texts => Forall safe texts /\ length texts = (6 + RECS_PER_USER * 5)%nat)
         records ->
  Forall (fun r => Forall safe r /\ (2 <= length r)%nat) records.
Proof.
  intros Hall. eapply Forall_impl; [exact Hall|].
  intros r [Hs Hl]. split; [exact Hs | rewrite Hl; cbn; lia].
Qed.

End WholeRuns.

(** C3: two runs of [main] for the same row count leave byte-identical
    files and end the same way, whatever the two processes start from: the
    state of the generator before [random.seed(42)], the files present, the
    clock, the output path and the fuel may all differ.  Both runs draw from
    the one stream that starts at [seed 42] and leave it in the same
    state. *)
Theorem main_deterministic {G : Type} `{PRNG G}
    (fuel1 fuel2 : nat) (n : Z) (out1 out2 : string) (w1 w2 : World G)
    r1 r2 w1' w2' :
  main fuel1 {| rows := n; out := out1 |} w1 = Some (r1, w1') ->
  main fuel2 {| rows := n; out := out2 |} w2 = Some (r2, w2') ->
  exists content,
    fs w1' !! out1 = Some content /\
    fs w2' !! out2 = Some content /\
    r1 = r2 /\
    rng w1' = rng w2'.
Proof.
  intros Hrun1 Hrun2.
  destruct (main_inv _ _ _ _ _ Hrun1) as (p1 & rg1 & fh1 & q1 & g1 & Hw1 & Hfs1 & Hg1 & ->).
  destruct (main_inv _ _ _ _ _ Hrun2) as (p2 & rg2 & fh2 & q2 & g2 & Hw2 & Hfs2 & Hg2 & ->).
  cbn [rows out] in *.
  apply (write_rows_fuel_mono fuel1 (Nat.max fuel1 fuel2)) in Hw1; [|lia].
  apply (write_rows_fuel_mono fuel2 (Nat.max fuel1 fuel2)) in Hw2; [|lia].
  destruct (write_rows_printed _ _ _ _ p2 _ _ _ _ _ Hw1) as (q & Hw1').
  rewrite Hw1' in Hw2. injection Hw2 as <- <- _ <-.
  exists fh1. rewrite Hg1, Hg2. auto.
Qed.

Lemma main_deterministic_witness :
  let w1 := {| rng := 7%nat; fs := ∅; clock := [1; 5]; stdout := [] |} in
  let w2 := {| rng := 99%nat; fs := {[ "b.csv" := "old" ]}; clock := [10; 20; 30];
               stdout := [Progress 10000] |} in
  exists r1 w1' r2 w2' content,
    main 20 {| rows := 1; out := "a.csv" |} w1 = Some (r1, w1') /\
    main 30 {| rows := 1; out := "b.csv" |} w2 = Some (r2, w2') /\
    fs w1' !! "a.csv" = Some content /\
    fs w2' !! "b.csv" = Some content.
Proof.
  intros w1 w2.
  assert (E1 : { x | main 20 {| rows := 1; out := "a.csv" |} w1 = Some x })
    by (eexists; vm_compute; reflexivity).
  assert (E2 : { x | main 30 {| rows := 1; out := "b.csv" |} w2 = Some x })
    by (eexists; vm_compute; reflexivity).
  destruct E1 as [[r1 w1'] E1], E2 as [[r2 w2'] E2].
  destruct (main_deterministic 20 30 1 "a.csv" "b.csv" w1 w2 r1 r2 w1' w2' E1 E2)
    as (content & H1 & H2 & _).
  exists r1, w1', r2, w2', content.
  exact (conj E1 (conj E2 (conj H1 H2))).
Defined.

(** C4: the sanity check re-reads the file, skips the header record and
    compares the field count of the first data record with the expected
    6 + N * 5 = 56: on a mismatch the process ends through [sys.exit] with
    the message "ERROR: expected 56 columns, got <n>" and a non-zero status;
    on a match [main] returns and the status is 0.  The outcome of [main] is
    the outcome of this check on the file it has just written, and with at
    least one row requested it is the status 0. *)
Theorem main_integrity_check {G : Type} `{PRNG G} :
  (forall (content : string) (header first_row : list string) (rest rest' : list string),
      reader_next (file_lines content) = Ok (header, rest) ->
      reader_next rest = Ok (first_row, rest') ->
      (length first_row <> (6 + RECS_PER_USER * 5)%nat ->
         sanity_check content
         = Raise (SystemExit ("ERROR: expected 56 columns, got "
                              +:+ str_nat (length first_row))) /\
         exit_code (sanity_check content) <> 0%Z) /\
      (length first_row = (6 + RECS_PER_USER * 5)%nat ->
         sanity_check content = Ok tt /\
         exit_code (sanity_check content) = 0%Z)) /\
  (forall (fuel : nat) (args : Args) (w : World G) r w',
      main fuel args w = Some (r, w') ->
      exists content,
        fs w' !! out args = Some content /\
        r = sanity_check content /\
        ((1 <= rows args)%Z -> r = Ok tt /\ exit_code r = 0%Z)).
Proof.
  split.
  - intros content header first_row rest rest' Hh Hr.
    rewrite (sanity_check_reads content header first_row rest rest' Hh Hr).
    destruct (decide (length first_row = (6 + RECS_PER_USER * 5)%nat)) as [He|Hne];
      split; intros Hlen; try contradiction; split; auto; discriminate.
  - intros fuel args w r w' Hrun.
    destruct (main_records fuel args w r w' Hrun) as (records & Hfs & Hr & Hlen & Hall).
    eexists. refine (conj Hfs (conj Hr _)). intros Hrows.
    destruct records as [|first_row records]; [cbn [length] in Hlen; lia|].
    destruct (sanity_check_records build_header first_row records (records_two _ Hall))
      as (rest & rest' & Hh & Hf).
    rewrite Hr, (sanity_check_reads _ _ _ _ _ Hh Hf).
    inversion Hall as [|? ? _ Hall']; subst.
    inversion Hall' as [|? ? [_ Hl] _]; subst.
    destruct (decide (length first_row = (6 + RECS_PER_USER * 5)%nat));
      [split; reflexivity | contradiction].
Qed.

Lemma main_integrity_check_witness :
  let content := "a,b" +:+ CRLF +:+ "1,2,3" +:+ CRLF in
  sanity_check content = Raise (SystemExit "ERROR: expected 56 columns, got 3") /\
  exit_code (sanity_check content) <> 0%Z.
Proof.
  intros content.
  destruct (proj1 (main_integrity_check (G := nat)) content ["a"; "b"] ["1"; "2"; "3"]
              [String.concat "," ["1"; "2"; "3"] +:+ String LF EmptyString] []
              ltac:(vm_compute; reflexivity) ltac:(vm_compute; reflexivity))
    as [Hbad _].
  apply Hbad. cbn. lia.
Defined.

(** C5: when a run for a row count [rows >= 0] completes, the file holds
    exactly [rows + 1] lines; its first line is the header, whose fields are
    user_id, age, gender, state, city, tier followed, for i = 1..N, by
    product_i, category_i, brand_i, price_i, recommendation_score_i; and
    every line, read back by the csv reader, is one record of exactly
    6 + 5 * N fields. *)
Theorem main_file_shape {G : Type} `{PRNG G}
    (fuel : nat) (args : Args) (w : World G) r w' :
  (0 <= rows args)%Z ->
  main fuel args w = Some (r, w') ->
  build_header
  = ["user_id"; "age"; "gender"; "state"; "city"; "tier"]
    ++ flat_map (fun i => map (fun field => field +:+ "_" +:+ str_nat i)
                            ["product"; "category"; "brand"; "price";
                             "recommendation_score"])
                (seq 1 RECS_PER_USER) /\
  exists content,
    fs w' !! out args = Some content /\
    Z.of_nat (length (file_lines content)) = (rows args + 1)%Z /\
    file_lines content !! 0%nat
    = Some (String.concat "," build_header +:+ String LF EmptyString) /\
    forall (i : nat) (line : string),
      file_lines content !! i = Some line ->
      exists fields,
        reader_next [line] = Ok (fields, []) /\
        length fields = (6 + 5 * RECS_PER_USER)%nat /\
        (i = 0%nat -> fields = build_header).
Proof.
  intros Hrows Hrun. split; [reflexivity|].
  destruct (main_records fuel args w r w' Hrun) as (records & Hfs & _ & Hlen & Hall).
  eexists. split; [exact Hfs|].
  assert (Hsafe : Forall (Forall safe) (build_header :: records)).
  { eapply Forall_impl; [exact Hall | now intros t [Ht _]]. }
  rewrite (file_lines_text _ Hsafe).
  split; [|split].
  - rewrite length_map. cbn [length]. lia.
  - reflexivity.
  - intros i line Hline.
    apply list_lookup_fmap_Some in Hline as (texts & -> & Htexts).
    pose proof (proj1 (Forall_forall _ _) (records_two _ Hall) texts
                  (list_elem_of_lookup_2 _ _ _ Htexts)) as [Hs Hl].
    pose proof (proj1 (Forall_forall _ _) Hall texts
                  (list_elem_of_lookup_2 _ _ _ Htexts)) as [_ Hl56].
    exists texts. split; [now apply reader_next_record|]. split.
    + rewrite Hl56. reflexivity.
    + intros ->. cbn in Htexts. congruence.
Qed.

Lemma main_file_shape_witness :
  exists r w' content,
    main 20 {| rows := 2; out := "o.csv" |}
         {| rng := 0%nat; fs := ∅; clock := []; stdout := [] |} = Some (r, w') /\
    fs w' !! "o.csv" = Some content /\
    length (file_lines content) = 3%nat.
Proof.
  set (args := {| rows := 2; out := "o.csv" |}).
  set (w := {| rng := 0%nat; fs := ∅; clock := []; stdout := [] |}).
  assert (E : { x | main 20 args w = Some x }) by (eexists; vm_compute; reflexivity).
  destruct E as [[r w'] E].
  destruct (main_file_shape 20 args w r w' ltac:(cbn; lia) E)
    as (_ & content & Hfs & Hlines & _).
  exists r, w', content. refine (conj E (conj Hfs _)).
  change (rows args + 1)%Z with 3%Z in Hlines. lia.
Defined.

(* ================================================================== *)
(** * Further properties of the generator                              *)
(* ================================================================== *)

(** ** Ages *)

(** [choose_age_band] always returns: the band is one of [AGE_BANDS] and the
    age lies in the inclusive range of that band, hence between 18 and 75. *)
Theorem choose_age_band_age_in_band {G : Type} `{PRNG G} (g : G) :
  exists band d age g',
    choose_age_band g = Some (Ok (band, age), g') /\
    dict_get AGE_BANDS band = Ok d /\
    (fst (band_range d) <= age <= snd (band_range d))%Z /\
    (18 <= age <= 75)%Z.
Proof.
  destruct (choose_age_band_ok g) as (band & d & age & g' & Hrun & Hband & Hd & Hage).
  exists band, d, age, g'. refine (conj Hrun (conj Hd (conj Hage _))).
  cbn in Hband.
  elem_cases Hband; cbn in Hd; injection Hd as <-; cbn in Hage; lia.
Qed.

(** ** Scores *)

Lemma round2_bounds_hundredths (x : Q) (a b : Z) :
  inject_Z a / 100 <= x <= inject_Z b / 100 ->
  inject_Z a / 100 <= round2 x <= inject_Z b / 100.
Proof.
  intros [Ha Hb]. unfold round2.
  destruct (round_half_even_bounds (x * 100) a b) as [H1 H2].
  - unfold Qdiv in *. change (/ 100) with (1 # 100) in *. lra.
  - unfold Qdiv in *. change (/ 100) with (1 # 100) in *. lra.
  - rewrite Zle_Qle in H1, H2.
    unfold Qdiv in *. change (/ 100) with (1 # 100) in *. split; lra.
Qed.

(** [round(random.uniform(0.1, 1.0), 2)] lies between 0.1 and 1. *)
Lemma score_range {G : Type} `{PRNG G} (g : G) :
  0.1 <= round2 (0.1 + (1.0 - 0.1) * fst (random g)) <= 1.
Proof.
  pose proof (random_range g) as [H0 H1].
  destruct (round2_bounds_hundredths (0.1 + (1.0 - 0.1) * fst (random g)) 10 100)
    as [Hlo Hhi].
  - change (inject_Z 10 / 100) with (10 # 100). change (inject_Z 100 / 100) with (100 # 100).
    split; nra.
  - change (inject_Z 10 / 100) with (10 # 100) in Hlo.
    change (inject_Z 100 / 100) with (100 # 100) in Hhi.
    split; lra.
Qed.

(** ** The cells of a user row *)

Section RowDetail.
Context {G : Type} `{PRNG G}.

(** The loop of [gen_user_row] collects well-formed recommendations only. *)
Lemma rec_loop_detail (fuel : nat) (cats : list string) (weights : list Q)
    (total : Q) (tier : string) :
  length weights = length cats ->
  last (accumulate weights) = Some total -> 0 < total ->
  (forall cat, cat ∈ cats -> cat ∈ keys CATEGORIES) ->
  tier ∈ keys TIERS ->
  forall recs seen_products (g : G) r g',
    seen_products = list_to_set (map rec_name recs) ->
    NoDup (map rec_name recs) ->
    (length recs <= RECS_PER_USER)%nat ->
    Forall rec_wf recs ->
    rec_loop fuel cats weights tier seen_products (flat_map rec_cells recs) g
      = Some (r, g') ->
    exists recs',
      r = Ok (flat_map rec_cells recs') /\
      NoDup (map rec_name recs') /\
      length recs' = RECS_PER_USER /\
      Forall rec_wf recs'.
Proof.
  intros Hlen Hlast Hpos Hcats Htier.
  induction fuel as [|fuel IH]; intros recs seen g r g' Hseen Hnd Hle Hwf Hrun.
  - cbn [rec_loop] in Hrun.
    assert (Hsize : size seen = length recs)
      by (subst seen; rewrite size_list_to_set, length_map; [reflexivity | exact Hnd]).
    destruct (decide (size seen < RECS_PER_USER)%nat); [discriminate|].
    injection Hrun as <- <-. exists recs. repeat split; auto. lia.
  - assert (Hsize : size seen = length recs)
      by (subst seen; rewrite size_list_to_set, length_map; [reflexivity | exact Hnd]).
    destruct (decide (size seen < RECS_PER_USER)%nat) as [Hlt|Hge].
    2:{ cbn [rec_loop] in Hrun.
        destruct (decide (size seen < RECS_PER_USER)%nat); [contradiction|].
        injection Hrun as <- <-. exists recs. repeat split; auto. lia. }
    destruct (choices_ok cats weights total g Hlen Hlast Hpos) as (category & Hch & Hlk).
    apply list_elem_of_lookup_2, Hcats in Hlk.
    destruct (category_lookup category Hlk) as (c & Hc & Hitems & Hbrands & _).
    destruct (choice_ok (items c) (snd (random g)) Hitems) as (item & Hi & Hil).
    destruct (choice_ok (brands c) (snd (randbelow (length (items c)) (snd (random g))))
                Hbrands) as (brand & Hb & Hbl).
    apply list_elem_of_lookup_2 in Hil, Hbl.
    destruct (decide (brand +:+ " " +:+ item ∈ seen)) as [Hdup|Hnew].
    + rewrite (rec_loop_retry fuel cats weights tier seen _ g _ _ _ category c item brand
                 Hlt Hch Hc Hi Hb Hdup) in Hrun.
      eapply IH; eauto.
    + destruct (choose_price_spec tier
                  (snd (randbelow (length (brands c))
                     (snd (randbelow (length (items c)) (snd (random g)))))) Htier)
        as (t & bucket & low & high & g1 & _ & _ & Hbk & Hr & Hp & Hpr & _).
      cbv zeta in Hp, Hpr.
      rewrite (rec_loop_accept fuel cats weights tier seen _ g _ _ _ _ category c item
                 brand _ Hlt Hch Hc Hi Hb Hnew Hp) in Hrun.
      match type of Hrun with
      | rec_loop _ _ _ _ _ (_ ++ [_; _; _; CFloat ?price; CFloat ?score]) _ = _ =>
          specialize (IH (recs ++ [(brand +:+ " " +:+ item, category, brand, price, score)])
                        (seen ∪ {[brand +:+ " " +:+ item]}))
      end.
      rewrite flat_map_app in IH. cbn [flat_map rec_cells app] in IH.
      eapply IH; [| | | | exact Hrun].
      * subst seen. rewrite map_app, list_to_set_app_L. cbn.
        now rewrite union_empty_r_L.
      * rewrite map_app. apply NoDup_app. split; [exact Hnd|]. split.
        -- intros x Hx Hx'. cbn in Hx'. apply list_elem_of_singleton in Hx' as ->.
           apply Hnew. subst seen. now apply elem_of_list_to_set.
        -- cbn. apply NoDup_singleton.
      * rewrite length_app. cbn. lia.
      * apply Forall_app. split; [exact Hwf|]. constructor; [|constructor].
        unfold rec_wf. refine (conj _ (conj _ (conj _ _))).
        -- exists c, item. auto.
        -- exists bucket, low, high. auto.
        -- apply score_range.
        -- apply round2_hundredths.
Qed.

End RowDetail.

(** What [gen_user_row] returns, cell by cell. *)
Lemma gen_user_row_detail {G : Type} `{PRNG G} (fuel : nat) (idx : Z) (g : G) r g' :
  gen_user_row fuel idx g = Some (r, g') ->
  exists age gender tier t k city state recs,
    r = Ok ([CStr ("USER_" +:+ format_06d idx); CInt age; CStr gender;
             CStr state; CStr city; CStr tier] ++ flat_map rec_cells recs) /\
    (18 <= age <= 75)%Z /\
    gender ∈ keys GENDERS /\
    dict_get TIERS tier = Ok t /\
    cities t !! k = Some city /\
    states t !! k = Some state /\
    NoDup (map rec_name recs) /\
    length recs = RECS_PER_USER /\
    Forall rec_wf recs.
Proof.
  intros Hrun. unfold gen_user_row in Hrun.
  destruct (choose_age_band_ok g) as (band & d & age & g1 & Hab & Hband & Hd & Hage).
  rewrite (bind_ok _ _ _ _ _ Hab) in Hrun.
  destruct (choose_gender_ok g1) as (gender & Hgd & Hgender).
  rewrite (bind_ok _ _ _ _ _ Hgd) in Hrun.
  destruct (choose_tier_city_state_spec (snd (random g1)))
    as (tier & t & city & state & Htcs & Htier & Ht & Hidx & Hcity & Hstate).
  rewrite (bind_ok _ _ _ _ _ Htcs) in Hrun.
  destruct (combined_category_weights_spec band gender Hband Hgender)
    as (ap & gp & cats & wts & _ & _ & Hccw & _ & _ & Hlen & _ & Hcats & Hpos & _).
  rewrite Hccw, bind_lift_ok in Hrun.
  assert (Hne : wts <> []).
  { intros ->. assert (Hin : "Electronics" ∈ cats).
    { apply Hcats. cbn. apply elem_of_cons. now left. }
    destruct cats; [now apply elem_of_nil in Hin | discriminate]. }
  destruct (last_accumulate_pos wts Hne Hpos) as (total & Hlast & Htot).
  assert (Hloop : forall rr gg,
             rec_loop fuel cats wts tier ∅ [] (snd (randbelow 10 (snd (random (snd (random g1))))))
             = Some (rr, gg) ->
             exists recs, rr = Ok (flat_map rec_cells recs) /\
                          NoDup (map rec_name recs) /\
                          length recs = RECS_PER_USER /\ Forall rec_wf recs).
  { intros rr gg Hl.
    exact (rec_loop_detail fuel cats wts total tier Hlen Hlast Htot
             (fun cat => proj1 (Hcats cat)) Htier [] ∅ _ _ _
             eq_refl (NoDup_nil_2) ltac:(cbn; lia) (Forall_nil_2 _) Hl). }
  apply bind_inv in Hrun as [(rec_flat & g2 & Hl & Hret) | (e & Hl & ->)].
  - destruct (Hloop _ _ Hl) as (recs & [= ->] & Hnd & Hn & Hwf).
    injection Hret as <- <-.
    exists age, gender, tier, t, (fst (randbelow 10 (snd (random (snd (random g1)))))),
      city, state, recs.
    refine (conj eq_refl (conj _ (conj Hgender (conj Ht (conj Hcity (conj Hstate
            (conj Hnd (conj Hn Hwf)))))))).
    cbn in Hband. elem_cases Hband; cbn in Hd; injection Hd as <-; cbn in Hage; lia.
  - destruct (Hloop _ _ Hl) as (recs & [=] & _).
Qed.

(** [gen_user_row] raises nothing, and a row it returns starts with the six
    identity cells in the order user id, age, gender, state, city, tier: the
    id is "USER_" and the zero-padded index, the age lies between 18 and 75,
    the gender is one of [GENDERS], and city and state stand at one index of
    the tier's lists. *)
Theorem gen_user_row_identity {G : Type} `{PRNG G} (fuel : nat) (idx : Z) (g : G) r g' :
  gen_user_row fuel idx g = Some (r, g') ->
  exists row age gender tier t k city state,
    r = Ok row /\
    take 6 row = [CStr ("USER_" +:+ format_06d idx); CInt age; CStr gender;
                  CStr state; CStr city; CStr tier] /\
    (18 <= age <= 75)%Z /\
    gender ∈ keys GENDERS /\
    dict_get TIERS tier = Ok t /\
    cities t !! k = Some city /\
    states t !! k = Some state.
Proof.
  intros Hrun.
  destruct (gen_user_row_detail fuel idx g r g' Hrun)
    as (age & gender & tier & t & k & city & state & recs & -> & Hage & Hg & Ht
        & Hc & Hs & _).
  eexists _, age, gender, tier, t, k, city, state.
  refine (conj eq_refl (conj eq_refl (conj Hage (conj Hg (conj Ht (conj Hc Hs)))))).
Qed.

Lemma gen_user_row_identity_witness :
  exists row g',
    gen_user_row 20 7 (seed 42 : nat) = Some (Ok row, g') /\
    row !! 0%nat = Some (CStr "USER_000007").
Proof.
  assert (E : { x | gen_user_row 20 7 (seed 42 : nat) = Some x })
    by (eexists; vm_compute; reflexivity).
  destruct E as [[r g'] E].
  destruct (gen_user_row_identity 20 7 (seed 42 : nat) r g' E)
    as (row & age & gender & tier & t & k & city & state & -> & Htake & _).
  exists row, g'. split; [exact E|].
  rewrite <- (lookup_take_lt row 6 0) by lia. now rewrite Htake.
Defined.

(** Every recommendation of a returned row is drawn from the catalog: the
    category is one of [CATEGORIES], the brand and the item belong to that
    category and form the product name "brand item", the price lies within
    the range of one of the four price buckets, and the score is a number of
    hundredths between 0.1 and 1. *)
Theorem gen_user_row_recommendations {G : Type} `{PRNG G}
    (fuel : nat) (idx : Z) (g : G) r g' :
  gen_user_row fuel idx g = Some (r, g') ->
  exists row recs,
    r = Ok row /\
    drop 6 row = flat_map rec_cells recs /\
    length recs = RECS_PER_USER /\
    Forall rec_wf recs.
Proof.
  intros Hrun.
  destruct (gen_user_row_detail fuel idx g r g' Hrun)
    as (age & gender & tier & t & k & city & state & recs & -> & _ & _ & _
        & _ & _ & _ & Hn & Hwf).
  eexists _, recs. refine (conj eq_refl (conj eq_refl (conj Hn Hwf))).
Qed.

Lemma gen_user_row_recommendations_witness :
  exists row g' recs,
    gen_user_row 20 7 (seed 42 : nat) = Some (Ok row, g') /\
    drop 6 row = flat_map rec_cells recs /\ Forall rec_wf recs.
Proof.
  assert (E : { x | gen_user_row 20 7 (seed 42 : nat) = Some x })
    by (eexists; vm_compute; reflexivity).
  destruct E as [[r g'] E].
  destruct (gen_user_row_recommendations 20 7 (seed 42 : nat) r g' E)
    as (row & recs & -> & Hd & _ & Hwf).
  exists row, g', recs. exact (conj E (conj Hd Hwf)).
Defined.

(** ** User ids *)

Lemma length_append (s1 s2 : string) :
  String.length (s1 +:+ s2) = (String.length s1 + String.length s2)%nat.
Proof.
  induction s1 as [|c s1 IH]; [reflexivity|].
  rewrite append_cons. cbn [String.length]. now rewrite IH.
Qed.

Lemma length_zeros (n : nat) : String.length (zeros n) = n.
Proof. induction n as [|n IH]; cbn; [reflexivity | now rewrite IH]. Qed.

Lemma uint_of_string_zeros (k : nat) (s : string) :
  NilEmpty.uint_of_string (zeros k +:+ s)
  = option_map (Nat.iter k Decimal.D0) (NilEmpty.uint_of_string s).
Proof.
  induction k as [|k IH]; cbn [zeros Nat.iter].
  - change (EmptyString +:+ s) with s. now destruct (NilEmpty.uint_of_string s).
  - rewrite append_cons. cbn [NilEmpty.uint_of_string]. rewrite IH.
    now destruct (NilEmpty.uint_of_string s).
Qed.

Lemma of_uint_iter_D0 (k : nat) (d : Decimal.uint) :
  N.of_uint (Nat.iter k Decimal.D0 d) = N.of_uint d.
Proof. induction k as [|k IH]; [reflexivity | exact IH]. Qed.

Lemma to_uint_nonnil (n : N) : N.to_uint n <> Decimal.Nil.
Proof.
  destruct n as [|p]; [discriminate | apply DecimalPos.Unsigned.to_uint_nonnil].
Qed.

Lemma uint_of_string_digits (n : N) :
  NilEmpty.uint_of_string (NilZero.string_of_uint (N.to_uint n)) = Some (N.to_uint n).
Proof.
  pose proof (to_uint_nonnil n) as Hn. unfold NilZero.string_of_uint.
  destruct (N.to_uint n); try apply NilEmpty.usu. congruence.
Qed.

(** The digits of a zero-padded index read back as the index. *)
Lemma decode_format_06d (idx : Z) :
  (0 <= idx)%Z -> decode_digits (format_06d idx) = Some (Z.to_N idx).
Proof.
  intros Hidx. unfold decode_digits, format_06d.
  destruct (idx <? 0)%Z eqn:E; [apply Z.ltb_lt in E; lia|].
  rewrite uint_of_string_zeros, uint_of_string_digits. cbn [option_map].
  rewrite of_uint_iter_D0, DecimalN.Unsigned.of_to. f_equal. lia.
Qed.

Lemma format_06d_inj (i j : Z) :
  (0 <= i)%Z -> (0 <= j)%Z -> format_06d i = format_06d j -> i = j.
Proof.
  intros Hi Hj Heq.
  pose proof (decode_format_06d i Hi) as Di. pose proof (decode_format_06d j Hj) as Dj.
  rewrite Heq, Dj in Di. injection Di as Di. lia.
Qed.

Lemma length_string_of_uint (d : Decimal.uint) :
  String.length (NilEmpty.string_of_uint d) = N.to_nat (DecimalPos.Unsigned.usize d).
Proof.
  induction d; cbn [NilEmpty.string_of_uint String.length DecimalPos.Unsigned.usize];
    rewrite ?N2Nat.inj_succ, ?IHd; reflexivity.
Qed.

(** A number whose first digit is not zero is at least the power of ten of
    the number of digits that follow. *)
Lemma of_uint_lower (d : Decimal.uint) :
  Decimal.unorm d = d -> d <> Decimal.D0 Decimal.Nil -> d <> Decimal.Nil ->
  (10 ^ (DecimalPos.Unsigned.usize d - 1) <= N.of_uint d)%N.
Proof.
  intros Hn Hz Hnil.
  assert (Hhead : forall u, d <> Decimal.D0 u).
  { intros u Hd. rewrite Hd in Hn. unfold Decimal.unorm in Hn.
    rewrite DecimalFacts.nzhead_D0 in Hn.
    destruct (Decimal.nzhead u) eqn:Eu; try discriminate.
    - injection Hn as <-. exact (Hz Hd).
    - pose proof (DecimalFacts.nzhead_nonzero u u0) as Hnz. congruence. }
  unfold N.of_uint. rewrite DecimalPos.Unsigned.of_uint_alt.
  destruct d as [|d|d|d|d|d|d|d|d|d|d]; [congruence | now destruct (Hhead d) | ..];
    unfold Decimal.rev; cbn [Decimal.revapp];
    rewrite DecimalPos.Unsigned.of_lu_revapp;
    cbn [DecimalPos.Unsigned.usize DecimalPos.Unsigned.of_lu];
    rewrite N.sub_1_r, N.pred_succ; nia.
Qed.

Lemma digits_at_most_six (n : N) :
  (n < 10 ^ 6)%N ->
  (String.length (NilZero.string_of_uint (N.to_uint n)) <= 6)%nat.
Proof.
  intros Hn.
  assert (Hnorm : Decimal.unorm (N.to_uint n) = N.to_uint n).
  { rewrite <- DecimalN.Unsigned.to_of, DecimalN.Unsigned.of_to. reflexivity. }
  pose proof (to_uint_nonnil n) as Hnil.
  destruct (Decimal.uint_eq_dec (N.to_uint n) (Decimal.D0 Decimal.Nil)) as [Hz|Hz].
  { rewrite Hz. cbn. lia. }
  pose proof (of_uint_lower _ Hnorm Hz Hnil) as Hlow.
  rewrite DecimalN.Unsigned.of_to in Hlow.
  assert (Hsz : (DecimalPos.Unsigned.usize (N.to_uint n) - 1 < 6)%N).
  { apply (N.pow_lt_mono_r_iff 10); lia. }
  unfold NilZero.string_of_uint.
  destruct (N.to_uint n) eqn:Ed; try congruence;
    rewrite length_string_of_uint; lia.
Qed.

(** The user id: the digits after the padding read back as the index, so
    distinct indices give distinct ids; the number always takes at least six
    characters and exactly six up to 999999. *)
Theorem format_06d_roundtrip (idx : Z) :
  (0 <= idx)%Z ->
  decode_digits (format_06d idx) = Some (Z.to_N idx) /\
  (forall j, (0 <= j)%Z -> format_06d j = format_06d idx -> j = idx) /\
  (6 <= String.length (format_06d idx))%nat /\
  ((idx < 1000000)%Z -> String.length (format_06d idx) = 6%nat).
Proof.
  intros Hidx. split; [now apply decode_format_06d|]. split.
  { intros j Hj Heq. now apply format_06d_inj. }
  unfold format_06d.
  destruct (idx <? 0)%Z eqn:E; [apply Z.ltb_lt in E; lia|].
  rewrite length_append, length_zeros. split; [lia|].
  intros Hlt.
  pose proof (digits_at_most_six (Z.abs_N idx) ltac:(change (10 ^ 6)%N with 1000000%N; lia)).
  lia.
Qed.

Lemma format_06d_roundtrip_witness :
  decode_digits (format_06d 42) = Some 42%N /\ String.length (format_06d 42) = 6%nat.
Proof.
  destruct (format_06d_roundtrip 42 ltac:(lia)) as (Hd & _ & _ & Hl).
  split; [exact Hd | apply Hl; lia].
Defined.

(** ** Whole runs, record by record *)

Section RunDetail.
Context {G : Type} `{PRNG G}.

Lemma range_lookup (a b : Z) (k : nat) (x : Z) :
  range a b !! k = Some x -> x = (a + Z.of_nat k)%Z.
Proof.
  unfold range. intros Hk.
  apply list_lookup_fmap_Some in Hk as (j & -> & Hj).
  apply lookup_seq in Hj as [-> _]. reflexivity.
Qed.

Lemma user_row_first (idx : Z) (row : list cell) :
  user_row idx row ->
  exists rest, map cell_str row = ("USER_" +:+ format_06d idx) :: rest.
Proof.
  intros (age & gender & state & city & tier & recs & -> & _).
  eexists. reflexivity.
Qed.

Lemma user_id_inj (i j : Z) :
  (0 <= i)%Z -> (0 <= j)%Z ->
  "USER_" +:+ format_06d i = "USER_" +:+ format_06d j -> i = j.
Proof.
  intros Hi Hj Heq. apply (format_06d_inj i j Hi Hj).
  now injection Heq.
Qed.

(** Every printed progress line belongs to a multiple of 10000, in the order
    of the rows. *)
Lemma write_rows_progress (fuel : nat) idxs fh printed (g : G) r fh' printed' g' :
  write_rows fuel idxs fh printed g = Some (r, fh', printed', g') ->
  printed' = printed ++ progress_events idxs.
Proof.
  revert fh printed g.
  induction idxs as [|idx idxs IH]; intros fh printed g; cbn [write_rows].
  - intros [= <- <- <- <-]. unfold progress_events. cbn. now rewrite app_nil_r.
  - destruct (gen_user_row fuel idx g) as [[r1 g1]|] eqn:E; [|discriminate].
    destruct (gen_user_row_spec fuel idx g r1 g1 E) as (row & -> & _).
    intros Hrun. apply IH in Hrun. rewrite Hrun.
    unfold progress_events. rewrite filter_cons.
    destruct (Z.eqb_spec (idx mod 10000) 0) as [Hm|Hm];
      destruct (decide (idx mod 10000 = 0)%Z); try contradiction.
    + cbn [map]. now rewrite <- app_assoc.
    + reflexivity.
Qed.

Lemma user_rows_texts (idxs : list Z) (data : list (list cell)) :
  Forall2 user_row idxs data ->
  Forall (fun texts => Forall safe texts /\ (2 <= length texts)%nat)
         (map (map cell_str) data).
Proof.
  intros Hdata. apply Forall_map.
  induction Hdata as [|idx row idxs data Hrow _ IH]; constructor; [|exact IH].
  destruct (user_row_texts idx row Hrow) as [Hlen Hsafe].
  split; [exact Hsafe | rewrite length_map, Hlen; cbn; lia].
Qed.

End RunDetail.

(** The file holds one line per record. *)
Lemma main_line_count {G : Type} `{PRNG G}
    (fuel : nat) (args : Args) (w : World G) r w' :
  main fuel args w = Some (r, w') ->
  exists content,
    fs w' !! out args = Some content /\
    length (file_lines content) = S (Z.to_nat (rows args)).
Proof.
  intros Hrun.
  destruct (main_records fuel args w r w' Hrun) as (records & Hfs & _ & Hlen & Hall).
  eexists. split; [exact Hfs|].
  rewrite file_lines_text.
  - rewrite length_map. cbn [length]. now rewrite Hlen.
  - eapply Forall_impl; [exact Hall | now intros t [Ht _]].
Qed.

(** The i-th data record of the file a run leaves starts with the user id of
    index i, "USER_" and the zero-padded i, and no two records share their
    user id. *)
Theorem main_rows_user_ids {G : Type} `{PRNG G}
    (fuel : nat) (args : Args) (w : World G) r w' :
  main fuel args w = Some (r, w') ->
  exists content,
    fs w' !! out args = Some content /\
    (forall (i : nat) (line : string),
        (1 <= i)%nat -> file_lines content !! i = Some line ->
        exists rest,
          reader_next [line]
          = Ok (("USER_" +:+ format_06d (Z.of_nat i)) :: rest, [])) /\
    (forall i j : nat,
        i <> j ->
        "USER_" +:+ format_06d (Z.of_nat i) <> "USER_" +:+ format_06d (Z.of_nat j)).
Proof.
  intros Hrun.
  destruct (main_spec fuel args w r w' Hrun) as (data & Hdata & Hfs & _).
  eexists. split; [exact Hfs|]. split.
  - pose proof (user_rows_texts _ _ Hdata) as Hall.
    assert (Hsafe : Forall (Forall safe) (build_header :: map (map cell_str) data)).
    { constructor; [apply config_safe|].
      eapply Forall_impl; [exact Hall | now intros t [Ht _]]. }
    rewrite (file_lines_text _ Hsafe).
    intros [|k] line Hi Hline; [lia|]. cbn [map lookup] in Hline.
    change ((read_line build_header :: map read_line (map (map cell_str) data)) !! S k)
      with (map read_line (map (map cell_str) data) !! k) in Hline.
    apply list_lookup_fmap_Some in Hline as (texts & -> & Htexts).
    pose proof (proj1 (Forall_forall _ _) Hall texts
                  (list_elem_of_lookup_2 _ _ _ Htexts)) as [Hs Hl].
    apply list_lookup_fmap_Some in Htexts as (row & -> & Hrow).
    destruct (Forall2_lookup_r _ _ _ _ _ Hdata Hrow) as (idx & Hidx & Hur).
    apply range_lookup in Hidx. subst idx.
    destruct (user_row_first _ _ Hur) as (rest & Hfirst).
    exists rest. rewrite (reader_next_record _ [] Hs Hl), Hfirst.
    repeat f_equal. lia.
  - intros i j Hij Heq. apply Hij.
    apply user_id_inj in Heq; lia.
Qed.

Lemma main_rows_user_ids_witness :
  exists r w' content line rest,
    main 20 {| rows := 2; out := "o.csv" |}
         {| rng := 0%nat; fs := ∅; clock := []; stdout := [] |} = Some (r, w') /\
    fs w' !! "o.csv" = Some content /\
    file_lines content !! 2%nat = Some line /\
    reader_next [line] = Ok ("USER_000002" :: rest, []).
Proof.
  set (args := {| rows := 2; out := "o.csv" |}).
  set (w := {| rng := 0%nat; fs := ∅; clock := []; stdout := [] |}).
  assert (E : { x | main 20 args w = Some x }) by (eexists; vm_compute; reflexivity).
  destruct E as [[r w'] E].
  destruct (main_rows_user_ids 20 args w r w' E) as (content & Hfs & Hrows & _).
  destruct (main_line_count 20 args w r w' E) as (content' & Hfs' & Hlen).
  rewrite Hfs in Hfs'. injection Hfs' as <-.
  destruct (lookup_lt_is_Some_2 (file_lines content) 2
              ltac:(rewrite Hlen; cbn; lia)) as [line Hline].
  destruct (Hrows 2%nat line ltac:(lia) Hline) as (rest & Hread).
  exists r, w', content, line, rest. exact (conj E (conj Hfs (conj Hline Hread))).
Defined.

(** A run ends in one of two ways only: [main] returns when at least one row
    was requested, and the second [next(reader)] raises [StopIteration] when
    none was (zero or a negative count).  The sanity check never reports a
    column mismatch on a file the run itself has written, and no sampling
    step raises. *)
Theorem main_outcomes {G : Type} `{PRNG G}
    (fuel : nat) (args : Args) (w : World G) r w' :
  main fuel args w = Some (r, w') ->
  ((1 <= rows args)%Z -> r = Ok tt) /\
  ((rows args <= 0)%Z -> r = Raise StopIteration) /\
  (forall msg, r <> Raise (SystemExit msg)).
Proof.
  intros Hrun.
  assert (Hpos : (1 <= rows args)%Z -> r = Ok tt).
  { intros Hrows.
    destruct (main_records fuel args w r w' Hrun) as (records & Hfs & Hr & Hlen & Hall).
    destruct records as [|first_row records]; [cbn [length] in Hlen; lia|].
    destruct (sanity_check_records build_header first_row records (records_two _ Hall))
      as (rest & rest' & Hh & Hf).
    rewrite Hr, (sanity_check_reads _ _ _ _ _ Hh Hf).
    inversion Hall as [|? ? _ Hall']; subst.
    inversion Hall' as [|? ? [_ Hl] _]; subst.
    destruct (decide (length first_row = (6 + RECS_PER_USER * 5)%nat));
      [reflexivity | contradiction]. }
  assert (Hneg : (rows args <= 0)%Z -> r = Raise StopIteration).
  { intros Hrows. destruct args as [n o]. cbn [rows] in Hrows.
    destruct (main_no_rows fuel n o w Hrows) as (w'' & Hrun' & _).
    rewrite Hrun' in Hrun. now injection Hrun as <- _. }
  refine (conj Hpos (conj Hneg _)).
  intros msg ->.
  destruct (Z_le_gt_dec 1 (rows args)) as [Hle|Hgt].
  - specialize (Hpos Hle). discriminate.
  - specialize (Hneg ltac:(lia)). discriminate.
Qed.

Lemma main_outcomes_witness :
  exists w',
    main 20 {| rows := -3; out := "o.csv" |}
         {| rng := 0%nat; fs := ∅; clock := []; stdout := [] |}
    = Some (Raise StopIteration, w').
Proof.
  set (args := {| rows := -3; out := "o.csv" |}).
  set (w := {| rng := 0%nat; fs := ∅; clock := []; stdout := [] |}).
  assert (E : { x | main 20 args w = Some x }) by (eexists; vm_compute; reflexivity).
  destruct E as [[r w'] E].
  destruct (main_outcomes 20 args w r w' E) as (_ & Hneg & _).
  exists w'. rewrite E, (Hneg ltac:(cbn; lia)). reflexivity.
Defined.

(** What a run prints and how it uses the clock: after what was printed
    before come one progress line for every multiple of 10000 among the
    indices 1..rows, in order, and then the closing line with the time
    elapsed between the two readings of the clock, the only two it makes. *)
Theorem main_prints {G : Type} `{PRNG G}
    (fuel : nat) (args : Args) (w : World G) r w' :
  main fuel args w = Some (r, w') ->
  let start := hd 0 (clock w) in
  let now := hd 0 (tl (clock w)) in
  stdout w' = stdout w ++ progress_events (range 1 (rows args + 1))
                ++ [Finished (rows args) (now - start) (out args)] /\
  clock w' = tl (tl (clock w)).
Proof.
  unfold main, time_time.
  destruct (clock w) as [|t1 ts] eqn:Ec; cbn [hd tl rng fs clock stdout];
    (destruct (write_rows fuel (range 1 (rows args + 1))
                 (csv_line (map CStr build_header)) (stdout w) (seed 42))
       as [[[[rg fh] p'] g']|] eqn:E; [|discriminate]);
    destruct (write_rows_spec _ _ _ _ _ _ _ _ _ E) as (-> & _);
    apply write_rows_progress in E; subst p'.
  - rewrite Ec. cbn [rng fs clock stdout]. rewrite lookup_insert_eq.
    intros [= <- <-]. cbn [stdout clock]. now rewrite <- app_assoc.
  - destruct ts as [|t2 ts]; cbn [rng fs clock stdout hd tl];
      rewrite lookup_insert_eq; intros [= <- <-]; cbn [stdout clock];
      now rewrite <- app_assoc.
Qed.

Lemma main_prints_witness :
  exists r w',
    main 20 {| rows := 1; out := "o.csv" |}
         {| rng := 0%nat; fs := ∅; clock := [3; 10]; stdout := [Progress 0] |}
    = Some (r, w') /\
    stdout w' = [Progress 0; Finished 1 (10 - 3) "o.csv"].
Proof.
  set (args := {| rows := 1; out := "o.csv" |}).
  set (w := {| rng := 0%nat; fs := ∅; clock := [3; 10]; stdout := [Progress 0] |}).
  assert (E : { x | main 20 args w = Some x }) by (eexists; vm_compute; reflexivity).
  destruct E as [[r w'] E].
  destruct (main_prints 20 args w r w' E) as [Hout _].
  exists r, w'. split; [exact E | exact Hout].
Defined.

(** ** Missing keys *)

Lemma dict_get_missing {V} (d : list (string * V)) (k : string) :
  k ∉ keys d -> dict_get d k = Raise (KeyError k).
Proof.
  induction d as [|[k' v] d IH]; intros Hk; cbn [dict_get]; [reflexivity|].
  cbn [keys map fst] in Hk. apply not_elem_of_cons in Hk as [Hne Hk].
  destruct (String.eqb_spec k' k) as [->|_]; [congruence | now apply IH].
Qed.

Lemma dict_get_present {V} (d : list (string * V)) (k : string) :
  k ∈ keys d -> exists v, dict_get d k = Ok v.
Proof.
  induction d as [|[k' v] d IH]; intros Hk; cbn [dict_get].
  - now apply elem_of_nil in Hk.
  - destruct (String.eqb_spec k' k) as [->|Hne]; [eauto|].
    cbn [keys map fst] in Hk. apply elem_of_cons in Hk as [->|Hk]; [congruence|].
    now apply IH.
Qed.

(** [combined_category_weights] looks the age band up first and the gender
    second: an age band without preferences raises [KeyError] of the age
    band whatever the gender is, and a known age band with an unknown gender
    raises [KeyError] of the gender. *)
Theorem combined_category_weights_missing_key (age_band gender : string) :
  (age_band ∉ keys AGE_PREFS ->
   combined_category_weights age_band gender = Raise (KeyError age_band)) /\
  (age_band ∈ keys AGE_PREFS -> gender ∉ keys GENDER_PREFS ->
   combined_category_weights age_band gender = Raise (KeyError gender)).
Proof.
  unfold combined_category_weights. split.
  - intros Ha. now rewrite (dict_get_missing _ _ Ha).
  - intros Ha Hg. destruct (dict_get_present _ _ Ha) as [ap ->].
    now rewrite (dict_get_missing _ _ Hg).
Qed.

Lemma combined_category_weights_missing_key_witness :
  combined_category_weights "0-17" "Male" = Raise (KeyError "0-17") /\
  combined_category_weights "60+" "Other" = Raise (KeyError "Other").
Proof.
  split.
  - apply (proj1 (combined_category_weights_missing_key "0-17" "Male")).
    apply (bool_decide_unpack _). vm_compute. reflexivity.
  - apply (proj2 (combined_category_weights_missing_key "60+" "Other"));
      apply (bool_decide_unpack _); vm_compute; reflexivity.
Defined.

(** [choose_price] for a tier that [TIERS] does not hold raises [KeyError]
    of that tier before anything is drawn: the generator is left as it
    was. *)
Theorem choose_price_unknown_tier {G : Type} `{PRNG G} (tier : string) (g : G) :
  tier ∉ keys TIERS ->
  choose_price tier g = Some (Raise (KeyError tier), g).
Proof.
  intros Ht. unfold choose_price, bind, lift.
  now rewrite (dict_get_missing _ _ Ht).
Qed.

Lemma choose_price_unknown_tier_witness :
  choose_price "Tier4" (seed 42 : nat) = Some (Raise (KeyError "Tier4"), seed 42).
Proof.
  apply (choose_price_unknown_tier "Tier4" (seed 42 : nat)).
  apply (bool_decide_unpack _). vm_compute. reflexivity.
Defined.

(** ** The weight of a category *)

Lemma share_dd_add (d : list (string * Q)) (c : string) (w : Q) (c' : string) :
  share (dd_add d c w) c' == share d c' + (if String.eqb c c' then w else 0).
Proof.
  unfold share. induction d as [|[k v] d IH]; cbn [dd_add dict_get].
  - destruct (String.eqb c c'); lra.
  - destruct (String.eqb_spec k c) as [->|Hkc]; cbn [dict_get].
    + destruct (String.eqb c c'); lra.
    + destruct (String.eqb_spec k c') as [->|Hkc'].
      * destruct (String.eqb_spec c c') as [->|_]; [congruence | lra].
      * exact IH.
Qed.

Lemma share_fold_dd_add (entries : list (string * Q)) (d : list (string * Q))
    (c : string) :
  NoDup (keys entries) ->
  share (fold_left (fun d '(cat, w) => dd_add d cat w) entries d) c
  == share d c + share entries c.
Proof.
  revert d. induction entries as [|[k w] entries IH]; intros d Hnd; cbn [fold_left].
  - unfold share at 3. cbn. lra.
  - cbn [keys map fst] in Hnd. apply NoDup_cons in Hnd as [Hk Hnd].
    rewrite (IH _ Hnd), share_dd_add.
    unfold share at 4. cbn [dict_get].
    destruct (String.eqb_spec k c) as [->|_].
    + fold (keys entries) in Hk.
      unfold share. rewrite (dict_get_missing _ _ Hk). lra.
    + fold (share entries c). lra.
Qed.

Lemma share_fold_smoothing (cats : list string) (d : list (string * Q)) (c : string) :
  NoDup cats ->
  share (fold_left (fun d cat => dd_add d cat 0.001) cats d) c
  == share d c + (if decide (c ∈ cats) then 0.001 else 0).
Proof.
  revert d. induction cats as [|k cats IH]; intros d Hnd; cbn [fold_left].
  - destruct (decide (c ∈ [])) as [Hin|_]; [now apply elem_of_nil in Hin | lra].
  - apply NoDup_cons in Hnd as [Hk Hnd]. rewrite (IH _ Hnd), share_dd_add.
    destruct (String.eqb_spec k c) as [->|Hkc].
    + destruct (decide (c ∈ cats)); [contradiction|].
      destruct (decide (c ∈ c :: cats)) as [_|Hn]; [lra|].
      exfalso. apply Hn. apply elem_of_cons. now left.
    + destruct (decide (c ∈ cats)) as [Hin|Hnin];
        destruct (decide (c ∈ k :: cats)) as [Hin'|Hnin']; try lra.
      * exfalso. apply Hnin'. apply elem_of_cons. now right.
      * exfalso. apply elem_of_cons in Hin' as [->|Hin']; congruence.
Qed.

(** The weight a category has before normalisation is the sum of the age
    band's share and the gender's share, each 0 when the table does not list
    the category, plus the smoothing constant 0.001 for every category of
    [CATEGORIES]. *)
Theorem raw_category_weights_formula (age_pref gender_pref : list (string * Q))
    (cat : string) :
  NoDup (keys age_pref) -> NoDup (keys gender_pref) ->
  share (raw_category_weights age_pref gender_pref) cat
  == share age_pref cat + share gender_pref cat
     + (if decide (cat ∈ keys CATEGORIES) then 0.001 else 0).
Proof.
  intros Ha Hg. unfold raw_category_weights.
  rewrite share_fold_smoothing
    by (apply (bool_decide_unpack _); vm_compute; reflexivity).
  rewrite (share_fold_dd_add gender_pref _ cat Hg).
  rewrite (share_fold_dd_add age_pref _ cat Ha).
  unfold share at 1. cbn [dict_get]. lra.
Qed.

Lemma raw_category_weights_formula_witness :
  share (raw_category_weights
           [("Electronics", 0.30); ("Fashion", 0.40); ("Beauty", 0.20); ("Books", 0.10)]
           [("Electronics", 0.30); ("Sports", 0.20); ("Fashion", 0.25);
            ("Home", 0.15); ("Books", 0.10)]) "Sports"
  == 0.201.
Proof.
  rewrite raw_category_weights_formula
    by (apply (bool_decide_unpack _); vm_compute; reflexivity).
  reflexivity.
Defined.

(** ** The retry loop has no bound *)

(** The loop of [gen_user_row] retries without limit: there is a generator,
    within the interface of [random], for which [gen_user_row] returns for no
    amount of fuel, because every draw repeats the product drawn first. *)
Theorem gen_user_row_can_diverge :
  exists (prng : PRNG unit),
    forall (fuel : nat) (idx : Z), @gen_user_row unit prng fuel idx tt = None.
Proof. exists stuck_prng. exact gen_user_row_stuck. Qed.

(* ================================================================== *)
(** * Properties of the second generator script                        *)
(* ================================================================== *)

Section FinalDatasetFacts.
Context {G : Type} `{PRNG G}.

Lemma catalog_item_ok (item : FinalDataset.CatalogItem) :
  item ∈ FinalDataset.product_catalog ->
  FinalDataset.brands item <> [] /\
  (fst (FinalDataset.cost_range item) <= snd (FinalDataset.cost_range item))%Z.
Proof.
  intros Hin. unfold FinalDataset.product_catalog in Hin.
  elem_cases Hin; (split; [discriminate | cbn; lia]).
Qed.

(** [generate_record] always returns, with a record of the expected form. *)
Lemma generate_record_spec (user_id : string) (product_id : Z) (g : G) :
  exists record g',
    FinalDataset.generate_record user_id product_id g = Some (Ok record, g') /\
    generated user_id product_id record.
Proof.
  unfold FinalDataset.generate_record.
  destruct (randint_ok 18 60 g ltac:(lia)) as [Hage Hk].
  rewrite (bind_ok _ _ _ _ _ Hage).
  set (g1 := snd (randbelow (Z.to_nat (60 + 1 - 18)) g)).
  destruct (choice_ok ["M"; "F"] g1 ltac:(discriminate)) as (gender & Hg & Hgl).
  rewrite (bind_ok _ _ _ _ _ Hg).
  set (g2 := snd (randbelow (length ["M"; "F"]) g1)).
  destruct (choice_ok FinalDataset.cities g2 ltac:(discriminate)) as (location & Hl & Hll).
  rewrite (bind_ok _ _ _ _ _ Hl).
  set (g3 := snd (randbelow (length FinalDataset.cities) g2)).
  destruct (choice_ok FinalDataset.product_catalog g3 ltac:(discriminate))
    as (item & Hi & Hil).
  rewrite (bind_ok _ _ _ _ _ Hi).
  set (g4 := snd (randbelow (length FinalDataset.product_catalog) g3)).
  apply list_elem_of_lookup_2 in Hgl, Hll, Hil.
  destruct (catalog_item_ok item Hil) as [Hne Hcr].
  destruct (choice_ok (FinalDataset.brands item) g4 Hne) as (brand & Hb & Hbl).
  rewrite (bind_ok _ _ _ _ _ Hb).
  apply list_elem_of_lookup_2 in Hbl.
  destruct (randint_ok _ _ (snd (randbelow (length (FinalDataset.brands item)) g4)) Hcr)
    as [Hc Hck].
  rewrite (bind_ok _ _ _ _ _ Hc).
  eexists _, _. split; [reflexivity|].
  eexists _, gender, location, item, brand, _.
  refine (conj _ (conj Hgl (conj Hll (conj Hil (conj Hbl (conj _ eq_refl)))))); lia.
Qed.

(** The loop of [build_dataset] appends one generated record per product
    id, each for a user id drawn from [user_ids]. *)
Lemma gen_records_spec (pids : list Z) (user_ids : list string) (g : G) :
  user_ids <> [] ->
  forall records,
  exists new g',
    FinalDataset.gen_records pids user_ids records g = Some (Ok (records ++ new), g') /\
    Forall2 (fun pid record =>
               exists user_id, user_id ∈ user_ids /\
                               generated user_id (pid + 500) record) pids new.
Proof.
  intros Hne. revert g.
  induction pids as [|pid pids IH]; intros g records; cbn [FinalDataset.gen_records].
  - exists [], g. rewrite app_nil_r. split; [reflexivity | constructor].
  - destruct (choice_ok user_ids g Hne) as (user_id & Hu & Hul).
    rewrite (bind_ok _ _ _ _ _ Hu).
    apply list_elem_of_lookup_2 in Hul.
    destruct (generate_record_spec user_id (pid + 500)
                (snd (randbelow (length user_ids) g))) as (record & g1 & Hr & Hgen).
    rewrite (bind_ok _ _ _ _ _ Hr).
    destruct (IH g1 (records ++ [record])) as (new & g' & Hrun & Hall).
    exists (record :: new), g'. split.
    + rewrite Hrun. now rewrite <- app_assoc.
    + constructor; [eauto | exact Hall].
Qed.

Lemma user_ids_nonempty (n_rows : Z) :
  map format_06d (range 1 (Z.max 1 (n_rows / 10) + 1)) <> [].
Proof.
  intros Hnil. apply (f_equal (@length string)) in Hnil.
  rewrite length_map, length_range in Hnil. cbn [length] in Hnil. lia.
Qed.

Lemma make_frame_generated (user_id : string) (pid : Z) (record : list (string * cell)) :
  generated user_id pid record ->
  map (fun col => match dict_get record col with Ok v => Some v | Raise _ => None end)
      FinalDataset.COLUMNS
  = map (fun kv => Some (snd kv)) record /\
  keys record = FinalDataset.COLUMNS.
Proof.
  intros (age & gender & location & item & brand & cost & _ & _ & _ & _ & _ & _ & ->).
  split; reflexivity.
Qed.

(** [build_dataset] always returns: the frame holds the generated records,
    one per product id of [range(1, n_rows + 1)]. *)
Lemma build_dataset_spec (n_rows : Z) (seed0 : option Z) (g : G) :
  exists records g',
    FinalDataset.build_dataset n_rows seed0 g
    = Some (Ok (FinalDataset.make_frame records FinalDataset.COLUMNS), g') /\
    Forall2 (fun pid record =>
               exists user_id,
                 user_id ∈ map format_06d (range 1 (Z.max 1 (n_rows / 10) + 1)) /\
                 generated user_id (pid + 500) record)
            (range 1 (n_rows + 1)) records.
Proof.
  unfold FinalDataset.build_dataset.
  set (g0 := match seed0 with Some a => seed a | None => g end).
  destruct (gen_records_spec (range 1 (n_rows + 1)) _ g0 (user_ids_nonempty n_rows) [])
    as (records & g' & Hrun & Hall).
  exists records, g'. split; [|exact Hall].
  destruct seed0 as [a|]; unfold bind at 1; cbn;
    fold g0; rewrite (bind_ok _ _ _ _ _ Hrun); reflexivity.
Qed.

End FinalDatasetFacts.

(** [generate_record] always returns a record with exactly the twelve
    columns of the data frame, in their order.  The user id and the product
    id are the arguments; the age lies between 18 and 60; the gender is "M"
    or "F" and [Gender_category] repeats it; the location is one of
    [cities]. *)
Theorem generate_record_demographics {G : Type} `{PRNG G}
    (user_id : string) (product_id : Z) (g : G) :
  exists record g' age gender location,
    FinalDataset.generate_record user_id product_id g = Some (Ok record, g') /\
    keys record = FinalDataset.COLUMNS /\
    dict_get record "user_id" = Ok (CStr user_id) /\
    dict_get record "product_id" = Ok (CInt product_id) /\
    dict_get record "Age" = Ok (CInt age) /\ (18 <= age <= 60)%Z /\
    dict_get record "Gender" = Ok (CStr gender) /\
    dict_get record "Gender_category" = Ok (CStr gender) /\
    (gender = "M" \/ gender = "F") /\
    dict_get record "Location" = Ok (CStr location) /\
    location ∈ FinalDataset.cities.
Proof.
  destruct (generate_record_spec user_id product_id g)
    as (record & g' & Hrun & age & gender & location & item & brand & cost
        & Hage & Hg & Hl & _ & _ & _ & ->).
  eexists _, g', age, gender, location.
  refine (conj Hrun (conj eq_refl (conj eq_refl (conj eq_refl (conj eq_refl
          (conj Hage (conj eq_refl (conj eq_refl (conj _ (conj eq_refl Hl)))))))))).
  elem_cases Hg; auto.
Qed.

(** The product columns of a generated record describe one entry of
    [product_catalog]: [product_category] and [category] are the entry's,
    the brand is one of the entry's brands and [Brand_category] repeats it,
    the product name is "brand product_category", and the cost is an integer
    of the entry's inclusive cost range followed by " INR". *)
Theorem generate_record_product {G : Type} `{PRNG G}
    (user_id : string) (product_id : Z) (g : G) :
  exists record g' item brand cost,
    FinalDataset.generate_record user_id product_id g = Some (Ok record, g') /\
    item ∈ FinalDataset.product_catalog /\
    brand ∈ FinalDataset.brands item /\
    (fst (FinalDataset.cost_range item) <= cost <= snd (FinalDataset.cost_range item))%Z /\
    dict_get record "product_category" = Ok (CStr (FinalDataset.product_category item)) /\
    dict_get record "category" = Ok (CStr (FinalDataset.category item)) /\
    dict_get record "Brand" = Ok (CStr brand) /\
    dict_get record "Brand_category" = Ok (CStr brand) /\
    dict_get record "Product"
    = Ok (CStr (brand +:+ " " +:+ FinalDataset.product_category item)) /\
    dict_get record "cost" = Ok (CStr (str_int cost +:+ " INR")).
Proof.
  destruct (generate_record_spec user_id product_id g)
    as (record & g' & Hrun & age & gender & location & item & brand & cost
        & _ & _ & _ & Hi & Hb & Hc & ->).
  eexists _, g', item, brand, cost.
  refine (conj Hrun (conj Hi (conj Hb (conj Hc _)))).
  repeat split; reflexivity.
Qed.

(** [build_dataset] always returns a frame with the twelve columns and one
    row per product id of [range(1, n_rows + 1)].  Row k (from 0) holds the
    values of a generated record, no cell is missing, and its product id is
    k + 501, so the product ids are 501, 502, ... without repetition. *)
Theorem build_dataset_shape {G : Type} `{PRNG G}
    (n_rows : Z) (seed0 : option Z) (g : G) :
  exists df g',
    FinalDataset.build_dataset n_rows seed0 g = Some (Ok df, g') /\
    FinalDataset.columns df = FinalDataset.COLUMNS /\
    length (FinalDataset.data df) = Z.to_nat n_rows /\
    forall (k : nat) (row : list (option cell)),
      FinalDataset.data df !! k = Some row ->
      (exists user_id record,
          generated user_id (Z.of_nat k + 501) record /\
          row = map (fun kv => Some (snd kv)) record) /\
      length row = length FinalDataset.COLUMNS /\
      Forall is_Some row /\
      row !! 4%nat = Some (Some (CInt (Z.of_nat k + 501))).
Proof.
  destruct (build_dataset_spec n_rows seed0 g) as (records & g' & Hrun & Hall).
  eexists _, g'. refine (conj Hrun (conj eq_refl (conj _ _))).
  - cbn [FinalDataset.make_frame FinalDataset.data]. rewrite length_map.
    rewrite <- (Forall2_length _ _ _ Hall), length_range. f_equal. lia.
  - cbn [FinalDataset.make_frame FinalDataset.data]. intros k row Hrow.
    apply list_lookup_fmap_Some in Hrow as (record & -> & Hrec).
    destruct (Forall2_lookup_r _ _ _ _ _ Hall Hrec) as (pid & Hpid & user_id & _ & Hgen).
    apply range_lookup in Hpid. subst pid.
    replace (1 + Z.of_nat k + 500)%Z with (Z.of_nat k + 501)%Z in Hgen by lia.
    destruct (make_frame_generated _ _ _ Hgen) as [Hmap _].
    rewrite Hmap. split; [eauto|].
    destruct Hgen as (age & gender & location & item & brand & cost
                      & _ & _ & _ & _ & _ & _ & ->).
    split; [reflexivity|]. split; [|reflexivity].
    cbn [map snd]. repeat (constructor; [eexists; reflexivity|]). constructor.
Qed.

Lemma build_dataset_shape_witness :
  exists df g' row,
    FinalDataset.build_dataset 3 (Some 42%Z) (0%nat : nat) = Some (Ok df, g') /\
    FinalDataset.data df !! 2%nat = Some row /\
    row !! 4%nat = Some (Some (CInt 503)).
Proof.
  destruct (build_dataset_shape 3 (Some 42%Z) (0%nat : nat))
    as (df & g' & Hrun & _ & Hlen & Hrows).
  destruct (lookup_lt_is_Some_2 (FinalDataset.data df) 2
              ltac:(rewrite Hlen; cbn; lia)) as [row Hrow].
  destruct (Hrows 2%nat row Hrow) as (_ & _ & _ & Hpid).
  exists df, g', row. exact (conj Hrun (conj Hrow Hpid)).
Defined.

(** Every row of the frame belongs to one of the pre-generated users: its
    user id is the zero-padded number of a user between 1 and
    max(1, n_rows // 10). *)
Theorem build_dataset_user_ids {G : Type} `{PRNG G}
    (n_rows : Z) (seed0 : option Z) (g : G) :
  exists df g',
    FinalDataset.build_dataset n_rows seed0 g = Some (Ok df, g') /\
    forall (k : nat) (row : list (option cell)),
      FinalDataset.data df !! k = Some row ->
      exists uid,
        (1 <= uid <= Z.max 1 (n_rows / 10))%Z /\
        row !! 0%nat = Some (Some (CStr (format_06d uid))).
Proof.
  destruct (build_dataset_spec n_rows seed0 g) as (records & g' & Hrun & Hall).
  eexists _, g'. split; [exact Hrun|].
  cbn [FinalDataset.make_frame FinalDataset.data]. intros k row Hrow.
  apply list_lookup_fmap_Some in Hrow as (record & -> & Hrec).
  destruct (Forall2_lookup_r _ _ _ _ _ Hall Hrec) as (pid & _ & user_id & Huid & Hgen).
  apply list_elem_of_fmap in Huid as (uid & -> & Huid).
  apply list_elem_of_lookup in Huid as (j & Hj).
  pose proof (lookup_lt_Some _ _ _ Hj) as Hlt. rewrite length_range in Hlt.
  apply range_lookup in Hj. subst uid.
  exists (1 + Z.of_nat j)%Z. split.
  { clear -Hlt. set (m := Z.max 1 (n_rows / 10)) in *. clearbody m. lia. }
  destruct Hgen as (age & gender & location & item & brand & cost
                    & _ & _ & _ & _ & _ & _ & ->).
  reflexivity.
Qed.

Lemma build_dataset_user_ids_witness :
  exists df g',
    FinalDataset.build_dataset 3 (Some 42%Z) (0%nat : nat) = Some (Ok df, g') /\
    forall row,
      FinalDataset.data df !! 0%nat = Some row ->
      row !! 0%nat = Some (Some (CStr "000001")).
Proof.
  destruct (build_dataset_user_ids 3 (Some 42%Z) (0%nat : nat))
    as (df & g' & Hrun & Hrows).
  exists df, g'. split; [exact Hrun|]. intros row Hrow.
  destruct (Hrows 0%nat row Hrow) as (uid & Hu & Hcell).
  change (Z.max 1 (3 / 10)) with 1%Z in Hu.
  assert (uid = 1%Z) by lia. subst uid. exact Hcell.
Defined.

(** With no row to generate, zero or a negative [n_rows], [build_dataset]
    returns the frame of twelve columns and no row, and draws nothing: the
    generator is the freshly seeded one, or the incoming one when no seed is
    given. *)
Theorem build_dataset_no_rows {G : Type} `{PRNG G}
    (n_rows : Z) (seed0 : option Z) (g : G) :
  (n_rows <= 0)%Z ->
  FinalDataset.build_dataset n_rows seed0 g
  = Some (Ok {| FinalDataset.columns := FinalDataset.COLUMNS; FinalDataset.data := [] |},
          match seed0 with Some a => seed a | None => g end).
Proof.
  intros Hn. unfold FinalDataset.build_dataset.
  rewrite (range_empty 1 (n_rows + 1)) by lia.
  destruct seed0; reflexivity.
Qed.

Lemma build_dataset_no_rows_witness :
  FinalDataset.build_dataset (-5) None (7%nat : nat)
  = Some (Ok {| FinalDataset.columns := FinalDataset.COLUMNS; FinalDataset.data := [] |},
          7%nat).
Proof. apply (build_dataset_no_rows (-5) None (7%nat : nat)). lia. Defined.
